(** * metal.contrib.slicing.synthetics.geometric_synthetics

    A shallow embedding of the geometric synthetic-data generator
    ([geometric_synthetics.py]) and the properties of its regions, label
    assigner, labeling-function synthesizer, slice assigner and conflict
    ranker.

    Numbers.  Coordinates, radii and probabilities are Python numbers; they
    are embedded as rationals ([Q]): every finite float and every int is a
    rational, order comparisons are exact, and arithmetic is taken exactly
    (rounding is not modelled).  Division is Python's [/]: on plain Python
    numbers it raises [ZeroDivisionError] on a zero divisor ([Py.div]); on
    NumPy [float64] scalars it gives an infinity or a NaN instead
    ([Np.div], [contains_numpy]).  Labels, slice ids and votes are
    integers ([Z]); counts ([n], [m], [num_clusters], [num_slices]) are
    naturals.

    Failure.  A call either returns, raises a Python exception, or (for the
    retry loop of the slice assigner only) exhausts the iteration budget
    the model gives it. *)

From Stdlib Require Import ZArith QArith Qround Qabs List String Bool Lia.
From Stdlib Require Import Permutation Sorted Lqa.
Import ListNotations.

Set Implicit Arguments.

(** ** Python results and exceptions *)

Module Py.

Inductive exn : Type :=
| AssertionError
| ZeroDivisionError
| IndexError
| ValueError
| Exception (msg : string).

Inductive result (A : Type) : Type :=
| Ok (a : A)
| Raise (e : exn)
| OutOfFuel.

Arguments Ok {A} a.
Arguments Raise {A} e.
Arguments OutOfFuel {A}.

Definition bind {A B : Type} (c : result A) (k : A -> result B) : result B :=
  match c with
  | Ok a => k a
  | Raise e => Raise e
  | OutOfFuel => OutOfFuel
  end.

(** [assert c] *)
Definition assert (c : bool) : result unit :=
  if c then Ok tt else Raise AssertionError.

(** [x < y] on numbers *)
Definition Qltb (x y : Q) : bool :=
  match x ?= y with Lt => true | _ => false end.

(** [x / y] on numbers *)
Definition div (x y : Q) : result Q :=
  if Qeq_bool y 0 then Raise ZeroDivisionError else Ok (x / y).

(** [l[i]] on a sequence: negative indices count from the end *)
Definition index {A : Type} (l : list A) (i : Z) : result A :=
  let len := Z.of_nat (List.length l) in
  let j := (if i <? 0 then len + i else i)%Z in
  if ((j <? 0) || (len <=? j))%Z then Raise IndexError
  else match nth_error l (Z.to_nat j) with
       | Some a => Ok a
       | None => Raise IndexError
       end.

End Py.

Import Py.

Notation "x <- c ;; k" := (Py.bind c (fun x => k))
  (at level 61, c at next level, right associativity).
Notation "' pat <- c ;; k" := (Py.bind c (fun x => match x with pat => k end))
  (at level 61, pat pattern, c at next level, right associativity).

(** ** Regions *)

Definition point : Type := (Q * Q)%type.

(** A region object: the fields stored by [Rectangle.__init__]
    ([self.b], [self.t], [self.l], [self.r]) or by [Ellipse.__init__] /
    [Circle.__init__] ([self.h], [self.k], [self.a], [self.b]).  [Square]
    and [Circle] are subclasses that only add construction code. *)
Inductive Region : Type :=
| RectangleObj (b t l r : Q)
| EllipseObj (h k a b : Q).

(** [Rectangle.__init__(self, b, t, l, r)] *)
Definition Rectangle (b t l r : Q) : result Region :=
  _ <- assert (Qltb b t) ;;
  _ <- assert (Qltb l r) ;;
  Ok (RectangleObj b t l r).

(** [Square.__init__(self, *args)] *)
Definition Square (b t l r : Q) : result Region :=
  self <- Rectangle b t l r ;;
  _ <- assert (Qeq_bool (t - b) (r - l)) ;;
  Ok self.

(** [Ellipse.__init__(self, h, k, a, b)] *)
Definition Ellipse (h k a b : Q) : result Region :=
  Ok (EllipseObj h k a b).

(** [Circle.__init__(self, h, k, r)] *)
Definition Circle (h k r : Q) : result Region :=
  Ok (EllipseObj h k r r).

(** [Rectangle.contains] and [Ellipse.contains] *)
Definition contains (self : Region) (p : point) : result bool :=
  let (x, y) := p in
  match self with
  | RectangleObj b t l r =>
      Ok (Qltb b x && Qltb x t && Qltb l y && Qltb y r)
  | EllipseObj h k a b =>
      u <- div ((x - h) ^ 2) (a ^ 2) ;;
      v <- div ((y - k) ^ 2) (b ^ 2) ;;
      Ok (Qltb (u + v) 1)
  end.

(** [Rectangle.center] and [Ellipse.center] *)
Definition center (self : Region) : point :=
  match self with
  | RectangleObj b t l r => ((l + r) / 2, (b + t) / 2)
  | EllipseObj h k _ _ => (h, k)
  end.

(** ** NumPy scalars

    When an operand of [/] is a NumPy [float64] scalar (a coordinate read
    from an array row), a zero divisor raises nothing: the quotient is an
    infinity, or a NaN for [0 / 0], and a warning is printed. *)

Module Np.

Inductive float64 : Type :=
| Finite (q : Q)
| PosInf
| NegInf
| NaN.

(** [x / y] for finite [x] and [y], a zero [y] being [+0.0] (the divisors
    of [Ellipse.contains] are squares) *)
Definition div (x y : Q) : float64 :=
  if Qeq_bool y 0 then
    if Qeq_bool x 0 then NaN else if Qltb 0 x then PosInf else NegInf
  else Finite (x / y).



End Np.


(** ** Random generators

    The module draws from two process-wide generators: Python's [random]
    and NumPy's [np.random]; [generate_dataset] also seeds torch's.  The
    generators' algorithms live in those libraries.  A generator is modelled
    by the stream of unit-interval samples it will deliver and the number
    of samples already consumed; the sampling functions are the libraries'
    documented maps of one unit sample. *)

Module Rng.

Record gen : Type := mkGen { tape : nat -> Q; pos : nat }.

(** fractional part: every delivered sample lies in [0, 1) *)
Definition frac (q : Q) : Q := q - inject_Z (Qfloor q).

Definition next (g : gen) : Q * gen :=
  (frac (tape g (pos g)), mkGen (tape g) (S (pos g))).

End Rng.

Record world : Type := mkWorld {
  py_random : Rng.gen;      (* random *)
  np_random : Rng.gen;      (* np.random *)
  torch_random : Rng.gen    (* torch *)
}.

(** Code that draws random numbers: a state transformer on the generators
    that may raise. *)
Definition M (A : Type) : Type := world -> result (A * world).

Definition ret {A : Type} (a : A) : M A := fun w => Ok (a, w).

Definition bindM {A B : Type} (c : M A) (k : A -> M B) : M B :=
  fun w => match c w with
           | Ok (a, w') => k a w'
           | Raise e => Raise e
           | OutOfFuel => OutOfFuel
           end.

Definition lift {A : Type} (r : result A) : M A :=
  fun w => match r with
           | Ok a => Ok (a, w)
           | Raise e => Raise e
           | OutOfFuel => OutOfFuel
           end.

Notation "x <~ c ;; k" := (bindM c (fun x => k))
  (at level 61, c at next level, right associativity).
Notation "' pat <~ c ;; k" := (bindM c (fun x => match x with pat => k end))
  (at level 61, pat pattern, c at next level, right associativity).

(** [random.random()] *)
Definition random_random : M Q :=
  fun w => let (u, g) := Rng.next (py_random w) in
           Ok (u, mkWorld g (np_random w) (torch_random w)).

(** [np.random.random_sample()] *)
Definition np_random_sample : M Q :=
  fun w => let (u, g) := Rng.next (np_random w) in
           Ok (u, mkWorld (py_random w) g (torch_random w)).

(** [np.random.uniform(low, high)] *)
Definition np_uniform (low high : Q) : M Q :=
  u <~ np_random_sample ;; ret (low + (high - low) * u).

(** [np.random.uniform(low, high, size)] *)
Fixpoint np_uniform_n (low high : Q) (size : nat) : M (list Q) :=
  match size with
  | O => ret []
  | S size' =>
      v <~ np_uniform low high ;;
      vs <~ np_uniform_n low high size' ;;
      ret (v :: vs)
  end.

(** an index below [n] from one unit sample *)
Definition np_index_below (n : nat) : M nat :=
  u <~ np_random_sample ;; ret (Z.to_nat (Qfloor (u * inject_Z (Z.of_nat n)))).

(** [np.random.randint(low, high)] *)
Definition np_randint (low high : Z) : M Z :=
  if (high <=? low)%Z then lift (Raise ValueError)
  else i <~ np_index_below (Z.to_nat (high - low)) ;; ret (low + Z.of_nat i)%Z.

(** [np.random.choice(range(n))] *)
Definition np_choice_range (n : nat) : M nat :=
  match n with
  | O => lift (Raise ValueError)
  | _ => np_index_below n
  end.

(** [np.random.choice(range(n), size)] *)
Fixpoint np_choice_range_n (n size : nat) : M (list nat) :=
  match size with
  | O => ret []
  | S size' =>
      i <~ np_choice_range n ;;
      rest <~ np_choice_range_n n size' ;;
      ret (i :: rest)
  end.

(** removes the element at position [i] *)
Fixpoint remove_at {A : Type} (i : nat) (l : list A) : list A :=
  match l, i with
  | [], _ => []
  | _ :: l', O => l'
  | a :: l', S i' => a :: remove_at i' l'
  end.

(** [np.random.choice(a, size, replace=False)]: [size] members of [a],
    no position taken twice *)
Fixpoint np_choice_noreplace {A : Type} (a : list A) (size : nat) : M (list A) :=
  match size with
  | O => ret []
  | S size' =>
      i <~ np_choice_range (List.length a) ;;
      x <~ lift (match nth_error a i with
                 | Some x => Ok x
                 | None => Raise IndexError
                 end) ;;
      rest <~ np_choice_noreplace (remove_at i a) size' ;;
      ret (x :: rest)
  end.

(** ** Building blocks *)

(** [flip(y)] *)
Definition flip (y : Z) : result Z :=
  if (y =? 0)%Z then Raise (Exception "Cannot flip the label of an abstain vote")
  else Ok (if (y =? 2)%Z then 1 else 2)%Z.

(** [X[i, :]] for a row index produced by the code *)
Definition row {A : Type} (X : list A) (i : nat) : result A :=
  match nth_error X i with
  | Some x => Ok x
  | None => Raise IndexError
  end.

(** [np.linspace(start, stop, num)] *)
Definition linspace (start stop : Q) (num : nat) : list Q :=
  match num with
  | 0%nat => []
  | 1%nat => [start]
  | _ => let step := (stop - start) / inject_Z (Z.of_nat (num - 1)) in
         map (fun i => inject_Z (Z.of_nat i) * step + start) (seq 0 num)
  end.

(** [create_points(rect, n, random)].  In grid mode with [n = 0] the source
    returns an array of shape [(0,)], on which the [n, d = X.shape] of
    every consumer raises [ValueError]; the model raises it here. *)
Definition create_points (rect : Region) (n : nat) (random : bool)
  : M (list point) :=
  match rect with
  | EllipseObj _ _ _ _ => lift (Raise AssertionError)
  | RectangleObj b t l r =>
      if random then
        x <~ np_uniform_n l r n ;;
        y <~ np_uniform_n b t n ;;
        ret (combine x y)
      else
        let s := Nat.sqrt_up n in
        let X := flat_map (fun x => map (fun y => (x, y)) (linspace b t s))
                          (linspace l r s) in
        match n with
        | O => lift (Raise ValueError)
        | _ => ret (firstn n X)
        end
  end.

(** [assign_y(X, Y, region, label)] *)
Fixpoint assign_y (X : list point) (Y : list Z) (region : Region) (label : Z)
  : result (list Z) :=
  match X, Y with
  | [], _ => Ok Y
  | x :: X', [] =>
      inside <- contains region x ;;
      if inside then Raise IndexError else assign_y X' [] region label
  | x :: X', y :: Y' =>
      inside <- contains region x ;;
      rest <- assign_y X' Y' region label ;;
      Ok ((if inside then label else y) :: rest)
  end.

(** the vote of one point inside the region:
    the body of [if x in region] in [assign_l] *)
Definition vote (y : Z) (props accs : list Q) : M Z :=
  u <~ random_random ;;
  prop <~ lift (index props (y - 1)) ;;
  if Qltb u prop then
    v <~ random_random ;;
    acc <~ lift (index accs (y - 1)) ;;
    if Qltb v acc then ret y else lift (flip y)
  else ret 0%Z.

(** [assign_l(X, Y, region, props, accs)] *)
Fixpoint assign_l (X : list point) (Y : list Z) (region : Region)
    (props accs : list Q) : M (list Z) :=
  match X, Y with
  | _, [] => ret []
  | [], _ :: _ => ret (map (fun _ => 0%Z) Y)
  | x :: X', y :: Y' =>
      inside <~ lift (contains region x) ;;
      l_i <~ (if inside then vote y props accs else ret 0%Z) ;;
      rest <~ assign_l X' Y' region props accs ;;
      ret (l_i :: rest)
  end.

(** [create_labels]: the body of [for i in range(num_clusters)], run
    [iters] times *)
Fixpoint create_labels_loop (X : list point) (min_a max_a : Q) (iters : nat)
    (Y : list Z) (regions : list Region) : M (list Z * list Region) :=
  match iters with
  | O => ret (Y, regions)
  | S iters' =>
      i <~ np_choice_range (List.length X) ;;
      '(x, y) <~ lift (row X i) ;;
      a <~ np_uniform min_a max_a ;;
      b <~ np_uniform min_a max_a ;;
      region <~ lift (Ellipse x y a b) ;;
      Y' <~ lift (assign_y X Y region 1) ;;
      create_labels_loop X min_a max_a iters' Y' (regions ++ [region])
  end.

(** [create_labels(X, k, num_clusters, min_a, max_a)] *)
Definition create_labels (X : list point) (k : Z) (num_clusters : nat)
    (min_a max_a : Q) : M (list Z * list Region) :=
  create_labels_loop X min_a max_a num_clusters (repeat k (List.length X)) [].

(** [l[l != polarity] = 0] *)
Definition keep_polarity (polarity : Z) (l : list Z) : list Z :=
  map (fun v => if (v =? polarity)%Z then v else 0%Z) l.

(** the local variables of [create_lfs] that its loop updates *)
Record lfs_state : Type := mkLfs {
  L_cols : list (list Z);
  accs_hist : list (list Q);
  props_hist : list (list Q);
  regions_hist : list Region
}.

(** [create_lfs]: the body of [for j in range(m)], run [iters] times *)
Fixpoint create_lfs_loop (X : list point) (Y : list Z) (unipolar : bool)
    (min_r max_r min_acc max_acc min_prop max_prop : Q) (iters : nat)
    (st : lfs_state) : M lfs_state :=
  match iters with
  | O => ret st
  | S iters' =>
      i <~ np_choice_range (List.length X) ;;
      '(x, y) <~ lift (row X i) ;;
      r <~ np_uniform min_r max_r ;;
      region <~ lift (Circle x y r) ;;
      props <~ np_uniform_n min_acc max_acc 2 ;;
      accs <~ np_uniform_n min_acc max_acc 2 ;;
      l <~ assign_l X Y region props accs ;;
      l' <~ (if unipolar
             then polarity <~ np_randint 1 (2 + 1) ;; ret (keep_polarity polarity l)
             else ret l) ;;
      create_lfs_loop X Y unipolar min_r max_r min_acc max_acc min_prop max_prop
        iters'
        (mkLfs (L_cols st ++ [l']) (accs_hist st ++ [accs])
               (props_hist st ++ [props]) (regions_hist st ++ [region]))
  end.

(** [np.array(L).transpose()] for [m] columns of length [n] *)
Definition transpose (n : nat) (cols : list (list Z)) : list (list Z) :=
  map (fun i => map (fun col => nth i col 0%Z) cols) (seq 0 n).

(** [create_lfs] up to its [return]: the vote matrix and the bookkeeping *)
Definition create_lfs_locals (X : list point) (Y : list Z) (m : nat)
    (unipolar : bool) (min_r max_r min_acc max_acc min_prop max_prop : Q)
  : M (list (list Z) * lfs_state) :=
  st <~ create_lfs_loop X Y unipolar min_r max_r min_acc max_acc
          min_prop max_prop m (mkLfs [] [] [] []) ;;
  let n := List.length X in
  match m with
  | O => (* L has shape (0,) *)
      lift (if (n =? 0)%nat then Raise IndexError else Raise AssertionError)
  | _ =>
      _ <~ lift (assert (List.length Y =? n)%nat) ;;
      ret (transpose n (L_cols st), st)
  end.

(** [create_lfs(X, Y, m, unipolar, min_r, max_r, min_acc, max_acc,
    min_prop, max_prop)] *)
Definition create_lfs (X : list point) (Y : list Z) (m : nat)
    (unipolar : bool) (min_r max_r min_acc max_acc min_prop max_prop : Q)
  : M (list (list Z) * list Region) :=
  '(L, st) <~ create_lfs_locals X Y m unipolar min_r max_r min_acc max_acc
                min_prop max_prop ;;
  ret (L, regions_hist st).

(** ** Conflict ranking *)

(** [conflict_func(votes)] of [rank_by_conflict] *)
Definition conflict_func (votes : list Z) : result Q :=
  _ <- assert (negb (existsb (Z.eqb 0) votes)) ;;
  let counter := fun v => Z.of_nat (count_occ Z.eq_dec votes v) in
  let num_votes := inject_Z (Z.of_nat (List.length votes)) in
  let num_pairs := (num_votes - inject_Z (Z.abs (counter 1%Z - counter 2%Z))) / 2 in
  Ok (num_pairs + (1 # 100) * num_votes).

(** [[int(l) for l in L[i, :] if l != 0]] *)
Definition nonzero_votes (L_i : list Z) : list Z :=
  filter (fun l => negb (l =? 0)%Z) L_i.

(** [sorted(..., key=lambda x: x[0], reverse=True)]: a stable sort, the
    larger key first *)
Fixpoint insert_desc {A : Type} (e : Q * A) (l : list (Q * A)) : list (Q * A) :=
  match l with
  | [] => [e]
  | e' :: l' =>
      if Qle_bool (fst e') (fst e) then e :: l else e' :: insert_desc e l'
  end.

Definition sorted_desc {A : Type} (l : list (Q * A)) : list (Q * A) :=
  fold_right insert_desc [] l.

(** the pairs [(conflict_func(votes), x)] in the order of [enumerate(X)] *)
Fixpoint scored_examples (X : list point) (L : list (list Z)) (i : nat)
  : result (list (Q * point)) :=
  match X with
  | [] => Ok []
  | x :: X' =>
      L_i <- row L i ;;
      rest <- scored_examples X' L (S i) ;;
      score <- conflict_func (nonzero_votes L_i) ;;
      Ok ((score, x) :: rest)
  end.

(** [rank_by_conflict(X, L)] *)
Definition rank_by_conflict (X : list point) (L : list (list Z))
  : result (list (Q * point)) :=
  scored <- scored_examples X L 0 ;;
  Ok (sorted_desc scored).

(** [dist(x, c) < min_dist] of [select_conflicted_points]; the square root
    is compared through the squares *)
Definition dist_lt (x c : point) (min_dist : Q) : bool :=
  Qltb 0 min_dist &&
  Qltb ((fst x - fst c) ^ 2 + (snd x - snd c) ^ 2) (min_dist ^ 2).

(** the [while len(centers) < num_slices] loop of
    [select_conflicted_points] *)
Fixpoint select_conflicted_loop (fuel : nat) (ranked_examples : list (Q * point))
    (num_slices : nat) (min_dist : Q) (centers : list point) (i : nat)
  : result (list point) :=
  if (List.length centers <? num_slices)%nat then
    match fuel with
    | O => OutOfFuel
    | S fuel' =>
        '(score, x) <- row ranked_examples i ;;
        if existsb (fun c => dist_lt x c min_dist) centers
        then select_conflicted_loop fuel' ranked_examples num_slices min_dist
               centers (S i)
        else select_conflicted_loop fuel' ranked_examples num_slices min_dist
               (centers ++ [x]) i
    end
  else Ok centers.

(** [select_conflicted_points(X, L, num_slices, min_dist)]; every turn of
    the loop either advances [i] or adds a center, so the budget given here
    is never exhausted *)
Definition select_conflicted_points (X : list point) (L : list (list Z))
    (num_slices : nat) (min_dist : Q) : result (list point) :=
  ranked_examples <- rank_by_conflict X L ;;
  select_conflicted_loop (num_slices + List.length ranked_examples + 1)
    ranked_examples num_slices min_dist [] 0.

(** [select_maxmin_points(X, L, num_slices)] *)
Definition select_maxmin_points (X : list point) (L : list (list Z))
    (num_slices : nat) : result (list point) :=
  _ <- assert (num_slices =? 2)%nat ;;
  ranked_examples <- rank_by_conflict X L ;;
  first <- index ranked_examples 0 ;;
  last <- index ranked_examples (-1) ;;
  Ok [snd first; snd last].

(** ** Slice assignment *)

(** [len(set(Z))] *)
Definition num_distinct (Zs : list Z) : nat :=
  List.length (nodup Z.eq_dec Zs).

(** [Counter(Z).values()] *)
Definition counter_values (Zs : list Z) : list nat :=
  map (count_occ Z.eq_dec Zs) (nodup Z.eq_dec Zs).

(** the acceptance test of [create_slices] *)
Definition satisfied (Zs : list Z) (num_slices : nat) (min_slice_size : Z) : bool :=
  (num_distinct Zs =? num_slices + 1)%nat &&
  forallb (fun z => (min_slice_size <? Z.of_nat z)%Z) (counter_values Zs).

(** the centers chosen in one turn of the retry loop *)
Definition choose_centers (X : list point) (L : list (list Z))
    (slice_source : string) (lf_regions : option (list Region))
    (num_slices : nat) (max_a : Q) : M (list point) :=
  if String.eqb slice_source "random" then
    idx <~ np_choice_range_n (List.length X) num_slices ;;
    lift ((fix rows (idx : list nat) : result (list point) :=
             match idx with
             | [] => Ok []
             | i :: idx' => x <- row X i ;; xs <- rows idx' ;; Ok (x :: xs)
             end) idx)
  else if String.eqb slice_source "lfs" then
    match lf_regions with
    | None => lift (Raise AssertionError)
    | Some regs =>
        chosen <~ np_choice_noreplace regs num_slices ;;
        ret (map center chosen)
    end
  else if String.eqb slice_source "conflicts" then
    let min_dist := max_a * (125 # 100) in
    lift (select_conflicted_points X L num_slices min_dist)
  else if String.eqb slice_source "maxmin" then
    lift (select_maxmin_points X L num_slices)
  else lift (Raise (Exception ("Unrecognized slice_source: " ++ slice_source))).

(** [create_slices]: the body of [for i in range(num_slices)], for the
    remaining [iters] values of [i] *)
Fixpoint create_slices_for (X : list point) (centers : list point)
    (min_a max_a : Q) (iters i : nat) (Zs : list Z) (regions : list Region)
  : M (list Z * list Region) :=
  match iters with
  | O => ret (Zs, regions)
  | S iters' =>
      '(x, y) <~ lift (row centers i) ;;
      a <~ np_uniform min_a max_a ;;
      b <~ np_uniform min_a max_a ;;
      region <~ lift (Ellipse x y a b) ;;
      Zs' <~ lift (assign_y X Zs region (Z.of_nat i + 1)) ;;
      create_slices_for X centers min_a max_a iters' (S i) Zs' (regions ++ [region])
  end.

(** [create_slices]: the [while not satisfied] loop, entered with the
    current [Z] (here [Zs]) and [regions]; [fuel] bounds the number of turns *)
Fixpoint create_slices_while (fuel : nat) (X : list point) (L : list (list Z))
    (slice_source : string) (lf_regions : option (list Region))
    (num_slices : nat) (min_slice_size : Z) (min_a max_a : Q)
    (Zs : list Z) (regions : list Region) : M (list Z * list Region) :=
  match fuel with
  | O => lift OutOfFuel
  | S fuel' =>
      centers <~ choose_centers X L slice_source lf_regions num_slices max_a ;;
      '(Zs', regions') <~ create_slices_for X centers min_a max_a num_slices 0
                           Zs regions ;;
      if satisfied Zs' num_slices min_slice_size then ret (Zs', regions')
      else create_slices_while fuel' X L slice_source lf_regions num_slices
             min_slice_size min_a max_a (repeat 0%Z (List.length X)) regions'
  end.

(** [create_slices(X, Y, L, slice_source, lf_regions, num_slices,
    min_slice_size, min_a, max_a)] *)
Definition create_slices (fuel : nat) (X : list point) (Y : list Z)
    (L : list (list Z)) (slice_source : string)
    (lf_regions : option (list Region)) (num_slices : nat)
    (min_slice_size : Z) (min_a max_a : Q) : M (list Z * list Region) :=
  create_slices_while fuel X L slice_source lf_regions num_slices
    min_slice_size min_a max_a (repeat 0%Z (List.length X)) [].

(** ** Plotting *)

(** [color_map(Y)] *)
Fixpoint color_map (Y : list Z) : result (list string) :=
  let colors := ["k"; "r"; "b"; "g"; "y"; "c"; "m"]%string in
  match Y with
  | [] => Ok []
  | y :: Y' => c <- index colors y ;; cs <- color_map Y' ;; Ok (c :: cs)
  end.

(** [plot_all(L, X, Y, Z)]: the drawing calls have no result; what is left
    is whether the colour look-ups of [plot_labels] and [plot_slices]
    raise *)
Definition plot_all (L : list (list Z)) (X : list point) (Y Zs : list Z)
  : result unit :=
  _ <- color_map Y ;;
  _ <- color_map Zs ;;
  Ok tt.

(** ** The generation script *)

(** the keyword dictionaries of [generate_dataset], with the defaults of
    the called functions filled in *)
Record L_kwargs_t : Type := mkL {
  L_min_r : Q; L_max_r : Q; L_min_acc : Q; L_max_acc : Q;
  L_min_prop : Q; L_max_prop : Q
}.
Record X_kwargs_t : Type := mkX { X_random : bool }.
Record Y_kwargs_t : Type := mkY { Y_num_clusters : nat; Y_min_a : Q; Y_max_a : Q }.
Record Z_kwargs_t : Type := mkZ {
  Z_num_slices : nat; Z_min_slice_size : Z; Z_min_a : Q; Z_max_a : Q
}.

Definition L_kwargs_default : L_kwargs_t :=
  mkL 1 5 (5 # 10) (9 # 10) (5 # 10) (9 # 10).
Definition X_kwargs_default : X_kwargs_t := mkX false.
Definition Y_kwargs_default : Y_kwargs_t := mkY 4 1 3.
Definition Z_kwargs_default : Z_kwargs_t := mkZ 4 20 1 2.

(** the truth value of the [seed] argument ([None] or an int) *)
Definition truthy (seed : option Z) : bool :=
  match seed with
  | None => false
  | Some s => negb (s =? 0)%Z
  end.

(** [[lf_region.center() == region.center() for lf_region in lf_regions]
    .index(True)] *)
Fixpoint index_of_center (c : point) (lf_regions : list Region) : result nat :=
  match lf_regions with
  | [] => Raise ValueError
  | lf_region :: rest =>
      let c' := center lf_region in
      if Qeq_bool (fst c') (fst c) && Qeq_bool (snd c') (snd c) then Ok 0%nat
      else i <- index_of_center c rest ;; Ok (S i)
  end.

Fixpoint targeting_regions (slice_regions lf_regions : list Region)
  : result (list nat) :=
  match slice_regions with
  | [] => Ok []
  | region :: rest =>
      lf_idx <- index_of_center (center region) lf_regions ;;
      idxs <- targeting_regions rest lf_regions ;;
      Ok (lf_idx :: idxs)
  end.

(** what [generate_dataset] returns *)
Record dataset : Type := mkDataset {
  ds_L : list (list Z);
  ds_X : list point;
  ds_Y : list Z;
  ds_Z : list Z;
  ds_lfs_targeting_regions : option (list nat)
}.

Section Script.

(** The state in which [random.seed(s)], [np.random.seed(s)] and
    [torch.manual_seed(s)] leave their generator. *)
Variable py_seeded np_seeded torch_seeded : Z -> Rng.gen.

(** the [if seed:] block *)
Definition set_random_seed (seed : option Z) : M unit :=
  fun w =>
    match seed with
    | Some s =>
        if negb (s =? 0)%Z then
          if ((0 <=? s) && (s <? 2 ^ 32))%Z
          then Ok (tt, mkWorld (py_seeded s) (np_seeded s) (torch_seeded s))
          else Raise ValueError  (* np.random.seed *)
        else Ok (tt, w)
    | None => Ok (tt, w)
    end.

(** [generate_dataset(k, m, n, L_kwargs, X_kwargs, Y_kwargs, Z_kwargs,
    unipolar, slice_source, point_size, plotting, seed)]; [fuel] bounds
    the turns of the retry loop of [create_slices] *)
Definition generate_dataset (fuel : nat) (k : Z) (m n : nat)
    (L_kwargs : L_kwargs_t) (X_kwargs : X_kwargs_t) (Y_kwargs : Y_kwargs_t)
    (Z_kwargs : Z_kwargs_t) (unipolar : bool) (slice_source : string)
    (plotting : bool) (seed : option Z) : M dataset :=
  _ <~ set_random_seed seed ;;
  canvas <~ lift (Rectangle 0 10 0 10) ;;
  X <~ create_points canvas n (X_random X_kwargs) ;;
  '(Y, label_regions) <~ create_labels X k (Y_num_clusters Y_kwargs)
                           (Y_min_a Y_kwargs) (Y_max_a Y_kwargs) ;;
  '(L, lf_regions) <~ create_lfs X Y m unipolar
                        (L_min_r L_kwargs) (L_max_r L_kwargs)
                        (L_min_acc L_kwargs) (L_max_acc L_kwargs)
                        (L_min_prop L_kwargs) (L_max_prop L_kwargs) ;;
  '(Zs, slice_regions) <~ create_slices fuel X Y L slice_source
                            (Some lf_regions) (Z_num_slices Z_kwargs)
                            (Z_min_slice_size Z_kwargs)
                            (Z_min_a Z_kwargs) (Z_max_a Z_kwargs) ;;
  _ <~ lift (if plotting then plot_all L X Y Zs else Ok tt) ;;
  lfs_targeting_regions <~
    (if String.eqb slice_source "lfs"
     then idxs <~ lift (targeting_regions slice_regions lf_regions) ;;
          ret (Some idxs)
     else ret None) ;;
  ret (mkDataset L X Y Zs lfs_targeting_regions).

End Script.

(** ** Generators with prescribed samples *)

(** a generator that delivers the listed samples, then zeros *)
Definition gen_of (samples : list Q) : Rng.gen :=
  Rng.mkGen (fun i => nth i samples 0) 0.

(** the process state in which [random] will deliver [py] and [np.random]
    will deliver [np] *)
Definition world_of (py np : list Q) : world :=
  mkWorld (gen_of py) (gen_of np) (gen_of []).

(** five points: three on the x-axis, two far from them *)
Definition X5 : list point := [(0, 0); (10, 0); (11, 0); (5, 5); (5, 6)].

(** a generator that delivers the same sample forever *)
Definition gen_const (q : Q) : Rng.gen := Rng.mkGen (fun _ => q) 0.

(** a process whose three generators all deliver [q] forever *)
Definition world_const (q : Q) : world :=
  mkWorld (gen_const q) (gen_const q) (gen_const q).

(** keyword arguments for small runs: one cluster, one slice that needs at
    least one member *)
Definition Y_kwargs_one : Y_kwargs_t := mkY 1 1 3.
Definition Z_kwargs_one : Z_kwargs_t := mkZ 1 0 1 2.

(** an example of seeding functions: the stream is fixed by the seed *)
Definition seeded_example (s : Z) : Rng.gen :=
  Rng.mkGen (fun i => inject_Z (s + Z.of_nat i) / 7) 0.

(** ** Vocabulary of the properties *)

(** [x in region] holds *)
Definition inside (region : Region) (p : point) : bool :=
  match contains region p with
  | Ok true => true
  | _ => false
  end.

(** the labels after any number of turns of the loop of [create_labels]:
    1 at the points some region so far holds, the entry value elsewhere *)
Definition labelled (X : list point) (k : Z) (regions : list Region)
    (Y : list Z) : Prop :=
  List.length Y = List.length X /\
  forall i p, nth_error X i = Some p ->
    nth_error Y i = Some (if existsb (fun r => inside r p) regions then 1%Z else k).



(** The score as the specification words it: over the non-abstaining votes
    of a row, [(num_votes - |count(1) - count(2)|) / 2 + 0.01 * num_votes]. *)
Definition spec_conflict_score (L_i : list Z) : Q :=
  let votes := filter (fun v => negb (v =? 0)%Z) L_i in
  let num_votes := inject_Z (Z.of_nat (List.length votes)) in
  let count1 := Z.of_nat (count_occ Z.eq_dec votes 1%Z) in
  let count2 := Z.of_nat (count_occ Z.eq_dec votes 2%Z) in
  (num_votes - inject_Z (Z.abs (count1 - count2))) / 2 + (1 # 100) * num_votes.

(** [e1] may stand before [e2] in a descending ranking *)
Definition score_ge {A : Type} (e1 e2 : Q * A) : Prop := fst e2 <= fst e1.

(** The acceptance predicate as the specification words it: the slice ids
    take [num_slices + 1] distinct values and every nonzero slice has at
    least [min_slice_size] members. *)
Definition spec_acceptance (Zs : list Z) (num_slices : nat) (min_slice_size : Z)
  : bool :=
  (num_distinct Zs =? num_slices + 1)%nat &&
  forallb (fun s => (s =? 0)%Z ||
                    (min_slice_size <=? Z.of_nat (count_occ Z.eq_dec Zs s))%Z)
          (nodup Z.eq_dec Zs).

(** slice ids between 0 and [hi] *)
Definition ids_upto (hi : nat) (Zs : list Z) : Prop :=
  Forall (fun z => 0 <= z <= Z.of_nat hi)%Z Zs.

(** every nonzero id [s] in [Zs] was assigned by the [s]-th region of
    [new] *)
Definition assigned_by (X : list point) (Zs : list Z) (new : list Region)
  : Prop :=
  forall j p s, nth_error X j = Some p -> nth_error Zs j = Some s ->
    s = 0%Z \/
    exists region, (0 < s)%Z /\
      nth_error new (Z.to_nat (s - 1)) = Some region /\
      contains region p = Ok true.

(** ** Members of a region *)

(** [[f(x) for x in X]] for a function that may raise *)
Fixpoint map_result {A B : Type} (f : A -> result B) (X : list A)
  : result (list B) :=
  match X with
  | [] => Ok []
  | x :: X' => b <- f x ;; bs <- map_result f X' ;; Ok (b :: bs)
  end.

(** [X[indices, :]] for a boolean mask [indices] *)
Definition mask_rows {A : Type} (X : list A) (indices : list bool) : list A :=
  map fst (filter snd (combine X indices)).

(** [get_points(X, region)] *)
Definition get_points (X : list point) (region : Region)
  : result (list point * list bool) :=
  indices <- map_result (contains region) X ;;
  Ok (mask_rows X indices, indices).

(** a point of the closed box with edges [b], [t], [l], [r] *)
Definition in_box (b t l r : Q) (p : point) : Prop :=
  (l <= fst p /\ fst p <= r) /\ (b <= snd p /\ snd p <= t).

(** ** Comparing runs *)

(** what a run returns, the final state of the generators left out *)
Definition returned {A : Type} (r : result (A * world)) : result A :=
  match r with
  | Ok (a, _) => Ok a
  | Raise e => Raise e
  | OutOfFuel => OutOfFuel
  end.

(** two process states with the same [random] and [np.random] *)
Definition same_py_np (w1 w2 : world) : Prop :=
  py_random w1 = py_random w2 /\ np_random w1 = np_random w2.

(** two process states with the same [np.random] *)
Definition same_np (w1 w2 : world) : Prop :=
  np_random w1 = np_random w2.

(** two outcomes that agree: the same value and related states, or the
    same failure *)
Definition agree {A : Type} (R : world -> world -> Prop)
    (r1 r2 : result (A * world)) : Prop :=
  match r1, r2 with
  | Ok (a1, w1), Ok (a2, w2) => a1 = a2 /\ R w1 w2
  | Raise e1, Raise e2 => e1 = e2
  | OutOfFuel, OutOfFuel => True
  | _, _ => False
  end.

(** a computation that cannot tell related states apart *)
Definition blind {A : Type} (R : world -> world -> Prop) (c : M A) : Prop :=
  forall w1 w2, R w1 w2 -> agree R (c w1) (c w2).

(** centers kept apart: no center lies within [min_dist] of an earlier
    one *)
Definition separated (min_dist : Q) (centers : list point) : Prop :=
  forall i j ci cj, (i < j)%nat ->
    nth_error centers i = Some ci -> nth_error centers j = Some cj ->
    dist_lt cj ci min_dist = false.

(** a column of votes that names one class only *)
Definition single_polarity (col : list Z) : Prop :=
  exists polarity, (polarity = 1%Z \/ polarity = 2%Z) /\
    Forall (fun v => v = 0%Z \/ v = polarity) col.

(** [c1 == c2] on two centers *)
Definition same_center (c1 c2 : point) : Prop :=
  fst c1 == fst c2 /\ snd c1 == snd c2.

(** a region whose center is the center of one of the LF regions *)
Definition centered_on (lf_regions : list Region) (region : Region) : Prop :=
  exists lf_region, In lf_region lf_regions /\ center lf_region = center region.

(** * Properties *)

(** ** Numbers *)

Lemma Qltb_lt (x y : Q) : Qltb x y = true <-> x < y.
Proof.
  unfold Qltb. rewrite Qlt_alt. destruct (x ?= y); split; congruence.
Qed.






(** ** Regions *)

(** what [Rectangle.contains] computes: [x] is tested against the bottom
    and top edges, [y] against the left and right edges *)
Lemma Rectangle_contains_spec (b t l r x y : Q) :
  contains (RectangleObj b t l r) (x, y) = Ok true <->
  (b < x /\ x < t) /\ (l < y /\ y < r).
Proof.
  simpl. split.
  - intros H. injection H as H.
    repeat (apply andb_prop in H; destruct H as [H ?]).
    rewrite !Qltb_lt in *. tauto.
  - intros [[H1 H2] [H3 H4]].
    rewrite <- Qltb_lt in H1, H2, H3, H4. now rewrite H1, H2, H3, H4.
Qed.


(** C1 (defect): [Rectangle(0, 2, 0, 10)] is well formed, the point (5, 1)
    lies strictly inside its four edges (left 0 < 5 < right 10, bottom
    0 < 1 < top 2) and is the rectangle's own [center()], yet [contains]
    answers [False]: it tests [x] against bottom/top and [y] against
    left/right.  Conversely (1, 5) lies above the top edge and is
    reported as contained. *)
Theorem C1_rectangle_contains_swaps_axes :
  Rectangle 0 2 0 10 = Ok (RectangleObj 0 2 0 10) /\
  ((0 < 5 /\ 5 < 10) /\ (0 < 1 /\ 1 < 2)) /\
  center (RectangleObj 0 2 0 10) = (10 / 2, 2 / 2) /\
  contains (RectangleObj 0 2 0 10) (5, 1) = Ok false /\
  contains (RectangleObj 0 2 0 10) (center (RectangleObj 0 2 0 10)) = Ok false /\
  ~ (0 < 5 /\ 5 < 2) /\
  contains (RectangleObj 0 2 0 10) (1, 5) = Ok true.
Proof.
  repeat split; try reflexivity.
  all: try (intros [_ H]; discriminate H).
Qed.








(** ** Running code in [result] and [M] *)

Lemma bind_Ok {A B : Type} (c : result A) (k : A -> result B) (b : B) :
  bind c k = Ok b -> exists a, c = Ok a /\ k a = Ok b.
Proof.
  destruct c as [a | e |]; simpl; intros H; try discriminate.
  now exists a.
Qed.

Lemma bindM_Ok {A B : Type} (c : M A) (k : A -> M B) (w : world) (r : B * world) :
  bindM c k w = Ok r -> exists a w', c w = Ok (a, w') /\ k a w' = Ok r.
Proof.
  unfold bindM. destruct (c w) as [[a w'] | e |]; intros H; try discriminate.
  now exists a, w'.
Qed.

Lemma lift_Ok {A : Type} (r : result A) (w : world) (a : A) (w' : world) :
  lift r w = Ok (a, w') -> r = Ok a /\ w' = w.
Proof.
  unfold lift. destruct r; intros H; try discriminate.
  injection H as -> ->. now split.
Qed.

Lemma ret_Ok {A : Type} (a b : A) (w w' : world) :
  ret a w = Ok (b, w') -> b = a /\ w' = w.
Proof.
  unfold ret. intros H. injection H as -> ->. now split.
Qed.

(** one step of inversion of a successful run *)
Ltac run_step :=
  match goal with
  | H : bindM _ _ _ = Ok _ |- _ =>
      let a := fresh "a" in let w := fresh "w" in
      let H1 := fresh "Hrun" in
      apply bindM_Ok in H; destruct H as (a & w & H1 & H)
  | H : lift _ _ = Ok (_, _) |- _ =>
      apply lift_Ok in H; destruct H as [H ?]; subst
  | H : ret _ _ = Ok (_, _) |- _ =>
      unfold ret in H; inversion H; subst; clear H
  | H : bind _ _ = Ok _ |- _ =>
      let a := fresh "a" in let H1 := fresh "Hrun" in
      apply bind_Ok in H; destruct H as (a & H1 & H)
  | H : Ok _ = Ok _ |- _ => injection H as H; subst
  end.

(** ** Assigning labels by region *)

Lemma assign_y_spec (region : Region) (label : Z) (X : list point) :
  forall (Y Y' : list Z),
    assign_y X Y region label = Ok Y' ->
    List.length Y' = List.length Y /\
    forall i p y, nth_error X i = Some p -> nth_error Y i = Some y ->
      exists b, contains region p = Ok b /\
                nth_error Y' i = Some (if b then label else y).
Proof.
  induction X as [|x X IH]; intros Y Y' H.
  - simpl in H. injection H as <-. split; [reflexivity|].
    intros [|i] p y Hp; discriminate Hp.
  - destruct Y as [|y0 Y]; simpl in H.
    + run_step. destruct a.
      * discriminate.
      * apply IH in H. destruct H as [Hlen _]. split; [exact Hlen|].
        intros i p y _ Hy. destruct i; discriminate Hy.
    + repeat run_step. apply IH in Hrun0. destruct Hrun0 as [Hlen Hnth].
      split; [simpl; now rewrite Hlen|].
      intros [|i] p y Hp Hy; simpl in *.
      * injection Hp as <-. injection Hy as <-. now exists a.
      * eauto.
Qed.

Lemma inside_app (regions : list Region) (region : Region) (p : point) :
  existsb (fun r => inside r p) (regions ++ [region]) =
  existsb (fun r => inside r p) regions || inside region p.
Proof.
  rewrite existsb_app. simpl. now rewrite orb_false_r.
Qed.

Lemma create_labels_loop_labelled (X : list point) (k : Z) (min_a max_a : Q) :
  forall iters Y regions w Y' regions' w',
    labelled X k regions Y ->
    create_labels_loop X min_a max_a iters Y regions w = Ok ((Y', regions'), w') ->
    labelled X k regions' Y' /\
    List.length regions' = (List.length regions + iters)%nat.
Proof.
  induction iters as [|iters IH]; intros Y regions w Y' regions' w' Hinv H.
  - simpl in H. run_step. split; [exact Hinv | lia].
  - simpl in H. repeat run_step. destruct a0 as [x y]. repeat run_step.
    apply IH in H.
    + destruct H as [H Hlen]. split; [exact H|].
      rewrite Hlen, length_app. simpl. lia.
    + unfold Ellipse in Hrun3. injection Hrun3 as <-.
      destruct Hinv as [HlenY HY].
      apply assign_y_spec in Hrun4. destruct Hrun4 as [Hlen Hnth].
      split; [congruence|].
      intros i p Hp. specialize (HY i p Hp).
      destruct (Hnth i p _ Hp HY) as (b & Hb & Hi).
      assert (Hin : inside (EllipseObj x y a0 a1) p = b).
      { unfold inside. rewrite Hb. now destruct b. }
      rewrite Hi, inside_app, Hin.
      destruct (existsb _ regions), b; reflexivity.
Qed.

Lemma create_labels_labelled (X : list point) (k : Z) (num_clusters : nat)
    (min_a max_a : Q) (w w' : world) (Y : list Z) (regions : list Region) :
  create_labels X k num_clusters min_a max_a w = Ok ((Y, regions), w') ->
  labelled X k regions Y /\ List.length regions = num_clusters.
Proof.
  unfold create_labels. intros H.
  apply (@create_labels_loop_labelled X k) in H; [exact H|].
  split; [apply repeat_length|].
  intros i p Hp. simpl.
  apply nth_error_repeat. apply nth_error_Some. congruence.
Qed.

Lemma labelled_values (X : list point) (k : Z) (regions : list Region)
    (Y : list Z) :
  labelled X k regions Y -> Forall (fun y => y = 1%Z \/ y = k) Y.
Proof.
  intros [Hlen HY]. apply Forall_forall. intros y Hy.
  apply In_nth_error in Hy. destruct Hy as [i Hi].
  assert (Hlt : (i < List.length X)%nat).
  { rewrite <- Hlen. apply nth_error_Some. congruence. }
  destruct (nth_error X i) as [p|] eqn:Hp.
  - specialize (HY i p Hp). rewrite HY in Hi. injection Hi as <-.
    destruct (existsb _ regions); auto.
  - apply nth_error_None in Hp. lia.
Qed.

(** C6: the array returned by [create_labels] has one label per point;
    a point held by at least one of the returned cluster ellipses has
    label 1, a point held by none keeps the initial label [k]; so every
    label is 1 or [k]. *)
Theorem C6_create_labels_one_or_k (X : list point) (k : Z) (num_clusters : nat)
    (min_a max_a : Q) (w w' : world) (Y : list Z) (regions : list Region) :
  create_labels X k num_clusters min_a max_a w = Ok ((Y, regions), w') ->
  List.length Y = List.length X /\
  List.length regions = num_clusters /\
  (forall i p, nth_error X i = Some p ->
     ((exists r, In r regions /\ contains r p = Ok true) ->
      nth_error Y i = Some 1%Z) /\
     ((forall r, In r regions -> contains r p <> Ok true) ->
      nth_error Y i = Some k)) /\
  Forall (fun y => y = 1%Z \/ y = k) Y.
Proof.
  intros H. apply create_labels_labelled in H. destruct H as [Hlab Hregs].
  split; [exact (proj1 Hlab)|]. split; [exact Hregs|].
  split; [|exact (labelled_values Hlab)].
  destruct Hlab as [Hlen HY].
  intros i p Hp. specialize (HY i p Hp). split.
  - intros (r & Hr & Hc).
    assert (E : existsb (fun r => inside r p) regions = true).
    { apply existsb_exists. exists r. split; [exact Hr|].
      unfold inside. now rewrite Hc. }
    now rewrite E in HY.
  - intros Hnone.
    assert (E : existsb (fun r => inside r p) regions = false).
    { apply not_true_is_false. intros E. apply existsb_exists in E.
      destruct E as (r & Hr & Hc). apply (Hnone r Hr).
      unfold inside in Hc.
      destruct (contains r p) as [[|] | |]; congruence. }
    now rewrite E in HY.
Qed.

Lemma C6_create_labels_one_or_k_witness :
  exists regions w',
    create_labels X5 2 2 1 3 (world_of [] [0; 0; 0; 1 # 5; 1 # 2; 1 # 2])
    = Ok (([1; 1; 1; 2; 2]%Z, regions), w') /\
    Forall (fun y => y = 1%Z \/ y = 2%Z) [1; 1; 1; 2; 2]%Z.
Proof.
  eexists. eexists.
  assert (Hrun :
    create_labels X5 2 2 1 3 (world_of [] [0; 0; 0; 1 # 5; 1 # 2; 1 # 2])
    = Ok (([1; 1; 1; 2; 2]%Z, _), _)) by (cbv; reflexivity).
  split; [exact Hrun|].
  exact (proj2 (proj2 (proj2
           (@C6_create_labels_one_or_k _ _ _ _ _ _ _ _ _ Hrun)))).
Defined.

(** ** Votes of the labeling functions *)


Lemma index_Ok_range {A : Type} (l : list A) (i : Z) (a : A) :
  index l i = Ok a ->
  (- Z.of_nat (List.length l) <= i < Z.of_nat (List.length l))%Z.
Proof.
  unfold index. destruct (i <? 0)%Z eqn:Hneg.
  - destruct ((_ <? 0) || _)%Z eqn:Hout; [discriminate|]. intros _.
    apply orb_false_elim in Hout. lia.
  - destruct ((_ <? 0) || _)%Z eqn:Hout; [discriminate|]. intros _.
    apply orb_false_elim in Hout. lia.
Qed.

Lemma np_uniform_n_length (low high : Q) :
  forall size w vs w',
    np_uniform_n low high size w = Ok (vs, w') -> List.length vs = size.
Proof.
  induction size as [|size IH]; intros w vs w' H; simpl in H.
  - run_step. reflexivity.
  - repeat run_step. simpl. f_equal. eauto.
Qed.












(** ** Conflict ranking *)

Lemma conflict_func_score (L_i : list Z) :
  conflict_func (nonzero_votes L_i) = Ok (spec_conflict_score L_i).
Proof.
  unfold conflict_func, nonzero_votes.
  assert (E : existsb (Z.eqb 0) (filter (fun l => negb (l =? 0)%Z) L_i) = false).
  { apply not_true_is_false. intros E. apply existsb_exists in E.
    destruct E as (v & Hv & Hz). apply filter_In in Hv.
    apply Z.eqb_eq in Hz. subst v. destruct Hv as [_ Hv]. discriminate Hv. }
  rewrite E. reflexivity.
Qed.

Lemma scored_examples_spec (L : list (list Z)) :
  forall X i scored,
    scored_examples X L i = Ok scored ->
    (List.length X + i <= List.length L \/ X = [])%nat /\
    scored = map (fun xl => (spec_conflict_score (snd xl), fst xl))
                 (combine X (skipn i L)).
Proof.
  induction X as [|x X IH]; intros i scored H; simpl in H.
  - injection H as <-. split; [now right | reflexivity].
  - repeat run_step. unfold row in Hrun.
    destruct (nth_error L i) as [L_i|] eqn:HL; [|discriminate].
    injection Hrun as <-. rewrite conflict_func_score in Hrun1.
    injection Hrun1 as <-. apply IH in Hrun0.
    destruct Hrun0 as [Hlen ->]. split.
    + left. simpl. destruct Hlen as [Hlen | ->]; [lia|].
      assert (i < List.length L)%nat by (apply nth_error_Some; congruence).
      simpl. lia.
    + assert (Hs : skipn i L = L_i :: skipn (S i) L).
      { clear - HL. revert i HL. induction L as [|r L IHL]; intros [|i] HL;
          simpl in *; try discriminate.
        - now injection HL as ->.
        - now apply IHL. }
      rewrite Hs. reflexivity.
Qed.

Lemma insert_desc_perm {A : Type} (e : Q * A) (l : list (Q * A)) :
  Permutation (insert_desc e l) (e :: l).
Proof.
  induction l as [|e' l IH]; simpl; [reflexivity|].
  destruct (Qle_bool (fst e') (fst e)); [reflexivity|].
  rewrite IH. apply perm_swap.
Qed.

Lemma sorted_desc_perm {A : Type} (l : list (Q * A)) :
  Permutation (sorted_desc l) l.
Proof.
  induction l as [|e l IH]; simpl; [reflexivity|].
  rewrite insert_desc_perm. now constructor.
Qed.

Lemma insert_desc_sorted {A : Type} (e : Q * A) (l : list (Q * A)) :
  Sorted score_ge l -> Sorted score_ge (insert_desc e l).
Proof.
  induction l as [|e' l IH]; intros Hs; simpl.
  - repeat constructor.
  - destruct (Qle_bool (fst e') (fst e)) eqn:Hle.
    + constructor; [exact Hs|]. constructor. now apply Qle_bool_iff.
    + inversion Hs as [|? ? Hs' Hhd]; subst.
      constructor; [now apply IH|].
      assert (Hlt : fst e <= fst e').
      { apply Qlt_le_weak, Qnot_le_lt. intros Hc.
        apply Qle_bool_iff in Hc. congruence. }
      destruct l as [|e'' l]; simpl.
      * now constructor.
      * destruct (Qle_bool (fst e'') (fst e)); constructor; [exact Hlt|].
        now inversion Hhd.
Qed.

Lemma sorted_desc_sorted {A : Type} (l : list (Q * A)) :
  StronglySorted score_ge (sorted_desc l).
Proof.
  apply Sorted_StronglySorted.
  - intros e1 e2 e3 H12 H23. unfold score_ge in *.
    now apply Qle_trans with (fst e2).
  - induction l as [|e l IH]; simpl; [constructor|].
    now apply insert_desc_sorted.
Qed.

(** C8: the ranker pairs every point with the score of its row,
    [(num_votes - |count(1) - count(2)|)/2 + 0.01 num_votes] over the
    nonzero votes, and returns the pairs with the scores descending; a
    point with votes [1,2,1,2] scores 2.04, a point with votes [1,1,1,1]
    scores 0.04, and the former is ranked first whichever comes first in
    [X]. *)
Theorem C8_rank_by_conflict_descending :
  (forall X L ranked,
     rank_by_conflict X L = Ok ranked ->
     Permutation ranked
       (map (fun xl => (spec_conflict_score (snd xl), fst xl)) (combine X L)) /\
     List.length ranked = List.length X /\
     StronglySorted score_ge ranked) /\
  (forall A B : point,
     spec_conflict_score [1; 2; 1; 2]%Z == 204 # 100 /\
     spec_conflict_score [1; 1; 1; 1]%Z == 4 # 100 /\
     rank_by_conflict [A; B] [[1; 2; 1; 2]; [1; 1; 1; 1]]%Z
       = Ok [(spec_conflict_score [1; 2; 1; 2]%Z, A);
             (spec_conflict_score [1; 1; 1; 1]%Z, B)] /\
     rank_by_conflict [B; A] [[1; 1; 1; 1]; [1; 2; 1; 2]]%Z
       = Ok [(spec_conflict_score [1; 2; 1; 2]%Z, A);
             (spec_conflict_score [1; 1; 1; 1]%Z, B)]).
Proof.
  split.
  - intros X L ranked H. unfold rank_by_conflict in H. repeat run_step.
    apply scored_examples_spec in Hrun. destruct Hrun as [Hlen ->].
    simpl skipn in *. split; [apply sorted_desc_perm|]. split.
    + rewrite (Permutation_length (sorted_desc_perm _)).
      rewrite length_map, length_combine.
      destruct Hlen as [Hlen | ->]; [lia | reflexivity].
    + apply sorted_desc_sorted.
  - intros A B. repeat split; reflexivity.
Qed.

Lemma C8_rank_by_conflict_descending_witness :
  rank_by_conflict [(0, 0); (1, 1); (2, 2)] [[1; 1; 0]; [1; 2; 2]; [0; 0; 0]]%Z
    = Ok [(206 # 200, (1, 1)); (4 # 200, (0, 0)); (0 # 200, (2, 2))] /\
  StronglySorted score_ge
    [(206 # 200, (1, 1)); (4 # 200, (0, 0)); (0 # 200, (2, 2))].
Proof.
  split; [reflexivity|].
  destruct (proj1 C8_rank_by_conflict_descending
              [(0, 0); (1, 1); (2, 2)] [[1; 1; 0]; [1; 2; 2]; [0; 0; 0]]%Z
              [(206 # 200, (1, 1)); (4 # 200, (0, 0)); (0 # 200, (2, 2))]
              eq_refl) as (_ & _ & Hsorted).
  exact Hsorted.
Defined.

(** ** Slice assignment *)

Lemma satisfied_iff (Zs : list Z) (num_slices : nat) (min_slice_size : Z) :
  satisfied Zs num_slices min_slice_size = true <->
  num_distinct Zs = (num_slices + 1)%nat /\
  forall s, In s Zs -> (min_slice_size < Z.of_nat (count_occ Z.eq_dec Zs s))%Z.
Proof.
  unfold satisfied, counter_values.
  rewrite andb_true_iff, Nat.eqb_eq, forallb_forall.
  split; intros [Hn Hc]; (split; [exact Hn|]).
  - intros s Hs. apply Z.ltb_lt. apply Hc.
    apply in_map. now apply nodup_In.
  - intros c Hin. apply in_map_iff in Hin. destruct Hin as (s & <- & Hs).
    apply Z.ltb_lt. apply Hc. now apply nodup_In in Hs.
Qed.

Lemma satisfied_spec_acceptance (Zs : list Z) (num_slices : nat)
    (min_slice_size : Z) :
  satisfied Zs num_slices min_slice_size = true ->
  spec_acceptance Zs num_slices min_slice_size = true.
Proof.
  intros H. apply satisfied_iff in H. destruct H as [Hn Hc].
  unfold spec_acceptance. apply andb_true_iff. split; [now apply Nat.eqb_eq|].
  apply forallb_forall. intros s Hs. apply nodup_In in Hs.
  apply orb_true_iff. right. apply Z.leb_le. specialize (Hc s Hs). lia.
Qed.

Lemma assign_y_Forall (P : Z -> Prop) (region : Region) (label : Z) :
  P label ->
  forall X Y Y', assign_y X Y region label = Ok Y' -> Forall P Y -> Forall P Y'.
Proof.
  intros Hl. induction X as [|x X IH]; intros Y Y' H HY; simpl in H.
  - now injection H as <-.
  - destruct Y as [|y Y].
    + run_step. destruct a; [discriminate | eauto].
    + repeat run_step. inversion HY; subst.
      constructor; [destruct a; assumption | eauto].
Qed.

Lemma ids_upto_weaken (lo hi : nat) (Zs : list Z) :
  (lo <= hi)%nat -> ids_upto lo Zs -> ids_upto hi Zs.
Proof.
  intros Hle. apply Forall_impl. intros z Hz. lia.
Qed.

Lemma create_slices_for_ids (X centers : list point) (min_a max_a : Q) :
  forall iters i Zs regions w Zs' regions' w',
    create_slices_for X centers min_a max_a iters i Zs regions w
      = Ok ((Zs', regions'), w') ->
    ids_upto (i + iters) Zs ->
    ids_upto (i + iters) Zs' /\ List.length Zs' = List.length Zs.
Proof.
  induction iters as [|iters IH]; intros i Zs regions w Zs' regions' w' H HZ;
    simpl in H.
  - run_step. now split.
  - repeat run_step. destruct a as [x y]. repeat run_step.
    apply IH in H.
    + replace (S i + iters)%nat with (i + S iters)%nat in H by lia.
      destruct H as [H Hlen]. split; [exact H|]. rewrite Hlen.
      match goal with
      | Hy : assign_y _ _ _ _ = Ok _ |- _ =>
          apply assign_y_spec in Hy; exact (proj1 Hy)
      end.
    + replace (S i + iters)%nat with (i + S iters)%nat by lia.
      match goal with
      | Hy : assign_y _ _ _ _ = Ok _ |- _ =>
          eapply assign_y_Forall in Hy; [exact Hy | simpl; lia | exact HZ]
      end.
Qed.

Lemma ids_upto_zeros (hi n : nat) : ids_upto hi (repeat 0%Z n).
Proof.
  apply Forall_forall. intros z Hz. apply repeat_spec in Hz. lia.
Qed.

(** what a returned [Z] owes to the loop: it passed the test, has one id
    per point, and only ids between 0 and [num_slices] *)
Lemma create_slices_while_accepts (X : list point) (L : list (list Z))
    (slice_source : string) (lf_regions : option (list Region))
    (num_slices : nat) (min_slice_size : Z) (min_a max_a : Q) :
  forall fuel Zs regions w Zs' regions' w',
    create_slices_while fuel X L slice_source lf_regions num_slices
      min_slice_size min_a max_a Zs regions w = Ok ((Zs', regions'), w') ->
    ids_upto num_slices Zs -> List.length Zs = List.length X ->
    satisfied Zs' num_slices min_slice_size = true /\
    ids_upto num_slices Zs' /\ List.length Zs' = List.length X.
Proof.
  induction fuel as [|fuel IH]; intros Zs regions w Zs' regions' w' H HZ Hlen;
    simpl in H.
  - discriminate.
  - repeat run_step. destruct a0 as [Zs1 regions1].
    apply create_slices_for_ids in Hrun0; [|exact HZ].
    destruct Hrun0 as [HZ1 Hlen1]. simpl in HZ1.
    destruct (satisfied Zs1 num_slices min_slice_size) eqn:Hsat.
    + run_step. repeat split; [exact Hsat | exact HZ1 | congruence].
    + apply IH in H; [exact H | apply ids_upto_zeros | apply repeat_length].
Qed.

(** with [num_slices + 1] distinct ids between 0 and [num_slices], every
    one of them occurs *)
Lemma all_ids_present (Zs : list Z) (num_slices : nat) :
  ids_upto num_slices Zs ->
  num_distinct Zs = (num_slices + 1)%nat ->
  forall s, (s <= num_slices)%nat -> In (Z.of_nat s) Zs.
Proof.
  intros HZ Hn s Hs.
  apply (nodup_In Z.eq_dec).
  apply (@NoDup_length_incl _ (nodup Z.eq_dec Zs)
           (map Z.of_nat (seq 0 (num_slices + 1)))).
  - apply NoDup_nodup.
  - rewrite length_map, length_seq. unfold num_distinct in Hn. lia.
  - intros z Hz. apply nodup_In in Hz.
    unfold ids_upto in HZ. rewrite Forall_forall in HZ. specialize (HZ z Hz).
    apply in_map_iff. exists (Z.to_nat z). split; [lia|].
    apply in_seq. lia.
  - apply in_map. apply in_seq. lia.
Qed.

(** C2 (as stated, refuted): with [num_slices = 1] and [min_slice_size = 1]
    the candidate [1,0,0,0,0] has two distinct ids and its slice has one
    member, so the stated predicate holds, but the code's test fails: it
    asks for strictly more than [min_slice_size] members.  The candidate
    [1,1,1,1,0] is refused too, although its slice has four members: the
    code also counts the background. *)
Lemma C2_acceptance_is_stricter :
  (spec_acceptance [1; 0; 0; 0; 0]%Z 1 1 = true /\
   satisfied [1; 0; 0; 0; 0]%Z 1 1 = false) /\
  (spec_acceptance [1; 1; 1; 1; 0]%Z 1 1 = true /\
   satisfied [1; 1; 1; 1; 0]%Z 1 1 = false).
Proof. repeat split. Qed.

(** C2 (amended): the test of [create_slices] accepts [Z] exactly when [Z]
    has [num_slices + 1] distinct values and every value occurring in [Z],
    the background 0 included, has strictly more than [min_slice_size]
    members.  A turn whose candidate passes the test returns it; a turn
    whose candidate fails the test continues the loop from an all-zero
    [Z].  Every [Z] returned by [create_slices] passes the test, hence has
    one id per point, contains 0 and every slice id 1..[num_slices], and
    satisfies the predicate of the specification. *)
Theorem C2_create_slices_acceptance :
  (forall Zs num_slices min_slice_size,
     satisfied Zs num_slices min_slice_size = true <->
     num_distinct Zs = (num_slices + 1)%nat /\
     forall s, In s Zs ->
       (min_slice_size < Z.of_nat (count_occ Z.eq_dec Zs s))%Z) /\
  (forall fuel X L slice_source lf_regions num_slices min_slice_size
          min_a max_a Zs regions w centers w1 Zs1 regions1 w2,
     choose_centers X L slice_source lf_regions num_slices max_a w
       = Ok (centers, w1) ->
     create_slices_for X centers min_a max_a num_slices 0 Zs regions w1
       = Ok ((Zs1, regions1), w2) ->
     satisfied Zs1 num_slices min_slice_size = true ->
     create_slices_while (S fuel) X L slice_source lf_regions num_slices
       min_slice_size min_a max_a Zs regions w
     = Ok ((Zs1, regions1), w2)) /\
  (forall fuel X L slice_source lf_regions num_slices min_slice_size
          min_a max_a Zs regions w centers w1 Zs1 regions1 w2,
     choose_centers X L slice_source lf_regions num_slices max_a w
       = Ok (centers, w1) ->
     create_slices_for X centers min_a max_a num_slices 0 Zs regions w1
       = Ok ((Zs1, regions1), w2) ->
     satisfied Zs1 num_slices min_slice_size = false ->
     create_slices_while (S fuel) X L slice_source lf_regions num_slices
       min_slice_size min_a max_a Zs regions w
     = create_slices_while fuel X L slice_source lf_regions num_slices
         min_slice_size min_a max_a (repeat 0%Z (List.length X)) regions1 w2) /\
  (forall fuel X Y L slice_source lf_regions num_slices min_slice_size
          min_a max_a w Zs regions w',
     create_slices fuel X Y L slice_source lf_regions num_slices
       min_slice_size min_a max_a w = Ok ((Zs, regions), w') ->
     satisfied Zs num_slices min_slice_size = true /\
     List.length Zs = List.length X /\
     (forall s, (s <= num_slices)%nat -> In (Z.of_nat s) Zs) /\
     spec_acceptance Zs num_slices min_slice_size = true).
Proof.
  split; [exact satisfied_iff|]. split; [|split].
  - intros fuel X L slice_source lf_regions num_slices min_slice_size
      min_a max_a Zs regions w centers w1 Zs1 regions1 w2 Hc Hfor Hsat.
    simpl. unfold bindM at 1. rewrite Hc.
    unfold bindM at 1. rewrite Hfor. now rewrite Hsat.
  - intros fuel X L slice_source lf_regions num_slices min_slice_size
      min_a max_a Zs regions w centers w1 Zs1 regions1 w2 Hc Hfor Hsat.
    simpl. unfold bindM at 1. rewrite Hc.
    unfold bindM at 1. rewrite Hfor. now rewrite Hsat.
  - intros fuel X Y L slice_source lf_regions num_slices min_slice_size
      min_a max_a w Zs regions w' H.
    unfold create_slices in H.
    apply create_slices_while_accepts in H;
      [|apply ids_upto_zeros | apply repeat_length].
    destruct H as (Hsat & Hids & Hlen).
    split; [exact Hsat|]. split; [exact Hlen|]. split.
    + apply all_ids_present; [exact Hids|].
      now apply satisfied_iff in Hsat.
    + now apply satisfied_spec_acceptance.
Qed.

Lemma C2_create_slices_acceptance_witness :
  exists regions w',
    create_slices 5 X5 [] [] "random" None 1 1 1 2
      (world_of [] [0; 0; 0; 1 # 5; 99 # 100; 99 # 100])
    = Ok (([0; 1; 1; 0; 0]%Z, regions), w') /\
    satisfied [0; 1; 1; 0; 0]%Z 1 1 = true.
Proof.
  eexists. eexists.
  assert (Hrun :
    create_slices 5 X5 [] [] "random" None 1 1 1 2
      (world_of [] [0; 0; 0; 1 # 5; 99 # 100; 99 # 100])
    = Ok (([0; 1; 1; 0; 0]%Z, _), _)) by (cbv; reflexivity).
  split; [exact Hrun|].
  exact (proj1 (proj2 (proj2 (proj2 C2_create_slices_acceptance))
                  _ _ _ _ _ _ _ _ _ _ _ _ _ _ Hrun)).
Defined.

(** ** Slice ids and the regions of the accepted turn *)

Lemma create_slices_for_assigned (X centers : list point) (min_a max_a : Q)
    (base : list Region) :
  forall iters i Zs new w Zs' regions' w',
    create_slices_for X centers min_a max_a iters i Zs (base ++ new) w
      = Ok ((Zs', regions'), w') ->
    List.length new = i -> assigned_by X Zs new ->
    exists new', regions' = base ++ new' /\
      List.length new' = (i + iters)%nat /\ assigned_by X Zs' new'.
Proof.
  induction iters as [|iters IH]; intros i Zs new w Zs' regions' w' H Hlen Hinv;
    simpl in H.
  - run_step. exists new. repeat split; [lia | exact Hinv].
  - repeat run_step. destruct a as [x y]. repeat run_step.
    unfold Ellipse in *.
    match goal with
    | He : Ok _ = Ok ?r |- _ => injection He as <-
    end.
    rewrite <- app_assoc in H. apply IH in H.
    + destruct H as (new' & -> & Hlen' & Hinv'). exists new'.
      repeat split; [lia | exact Hinv'].
    + rewrite length_app. simpl. lia.
    + match goal with
      | Hy : assign_y _ _ _ _ = Ok _ |- _ =>
          apply assign_y_spec in Hy; destruct Hy as [HlenZ Hnth]
      end.
      intros j p s Hp Hs.
      destruct (nth_error Zs j) as [z|] eqn:Hz.
      * destruct (Hnth j p z Hp Hz) as (b & Hb & Hj).
        rewrite Hj in Hs. injection Hs as <-. destruct b.
        -- right. eexists. split; [lia|]. split; [|exact Hb].
           replace (Z.to_nat (Z.of_nat (List.length new) + 1 - 1))
             with (List.length new) by lia.
           rewrite nth_error_app2 by lia.
           now rewrite Nat.sub_diag.
        -- destruct (Hinv j p z Hp Hz) as [-> | (region & Hpos & Hr & Hc)];
             [now left|].
           right. exists region. split; [exact Hpos|]. split; [|exact Hc].
           rewrite nth_error_app1; [exact Hr|].
           apply nth_error_Some. congruence.
      * apply nth_error_None in Hz.
        assert (nth_error a2 j <> None) as Hj by congruence.
        apply nth_error_Some in Hj. lia.
Qed.

Lemma assigned_by_zeros (X : list point) (n : nat) :
  assigned_by X (repeat 0%Z n) [].
Proof.
  intros j p s _ Hs. left.
  apply nth_error_In, repeat_spec in Hs. exact Hs.
Qed.

(** the round trip that does hold: the ids of a returned [Z] point into
    the last [num_slices] entries of the returned [regions]; the entries
    before them are left over from rejected turns *)
Lemma create_slices_while_round_trip (X : list point) (L : list (list Z))
    (slice_source : string) (lf_regions : option (list Region))
    (num_slices : nat) (min_slice_size : Z) (min_a max_a : Q) :
  forall fuel n regions w Zs' regions' w',
    create_slices_while fuel X L slice_source lf_regions num_slices
      min_slice_size min_a max_a (repeat 0%Z n) regions w
      = Ok ((Zs', regions'), w') ->
    exists stale new, regions' = stale ++ new /\
      List.length new = num_slices /\ assigned_by X Zs' new.
Proof.
  induction fuel as [|fuel IH]; intros n regions w Zs' regions' w' H;
    simpl in H.
  - discriminate.
  - repeat run_step. destruct a0 as [Zs1 regions1].
    destruct (satisfied Zs1 num_slices min_slice_size).
    + run_step. rewrite <- (app_nil_r regions) in Hrun0.
      apply create_slices_for_assigned in Hrun0;
        [|reflexivity | apply assigned_by_zeros].
      destruct Hrun0 as (new & -> & Hlen & Hinv). now exists regions, new.
    + apply IH in H. exact H.
Qed.

(** ** Range of the sampled probabilities *)

Lemma frac_range (q : Q) : 0 <= Rng.frac q /\ Rng.frac q < 1.
Proof.
  unfold Rng.frac. pose proof (Qfloor_le q) as Hlo.
  pose proof (Qlt_floor q) as Hhi. rewrite inject_Z_plus in Hhi.
  change (inject_Z 1) with 1 in Hhi. split; lra.
Qed.

Lemma np_uniform_range (low high : Q) (w w' : world) (v : Q) :
  low <= high -> np_uniform low high w = Ok (v, w') -> low <= v /\ v <= high.
Proof.
  intros Hle H. unfold np_uniform, np_random_sample, bindM, ret in H.
  simpl in H. injection H as <- _.
  destruct (frac_range (Rng.tape (np_random w) (Rng.pos (np_random w))))
    as [H0 H1].
  split; nra.
Qed.

(** C3 (defect): a run of [create_slices] with one slice whose first turn
    is rejected (its slice has a single member) and whose second turn is
    accepted.  The returned [regions] still starts with the ellipse of the
    rejected turn: the point [X[1] = (10, 0)] has slice id 1, but
    [regions[1 - 1]] is the ellipse around (0, 0) and does not contain it;
    the ellipse that assigned the id is [regions[1]]. *)
Theorem C3_regions_keep_rejected_turns :
  exists w' region1,
    create_slices 5 X5 [] [] "random" None 1 1 1 2
      (world_of [] [0; 0; 0; 1 # 5; 99 # 100; 99 # 100])
    = Ok (([0; 1; 1; 0; 0]%Z, [EllipseObj 0 0 1 1; region1]), w') /\
    nth_error X5 1 = Some (10, 0) /\
    nth_error [0; 1; 1; 0; 0]%Z 1 = Some 1%Z /\
    nth_error [EllipseObj 0 0 1 1; region1] (1 - 1) = Some (EllipseObj 0 0 1 1) /\
    contains (EllipseObj 0 0 1 1) (10, 0) = Ok false /\
    contains region1 (10, 0) = Ok true.
Proof.
  eexists. eexists. split; [cbv; reflexivity|].
  repeat split.
Qed.

(** ** Coverage and accuracy ranges *)

Lemma bindM_ext {A B : Type} (c : M A) (k k' : A -> M B) (w : world) :
  (forall a w', k a w' = k' a w') -> bindM c k w = bindM c k' w.
Proof.
  intros H. unfold bindM. destruct (c w) as [[a w'] | |]; auto.
Qed.

Lemma create_lfs_loop_ignores_prop_range (X : list point) (Y : list Z)
    (unipolar : bool) (min_r max_r min_acc max_acc : Q)
    (min_prop max_prop min_prop' max_prop' : Q) :
  forall iters st w,
    create_lfs_loop X Y unipolar min_r max_r min_acc max_acc
      min_prop max_prop iters st w
    = create_lfs_loop X Y unipolar min_r max_r min_acc max_acc
        min_prop' max_prop' iters st w.
Proof.
  induction iters as [|iters IH]; intros st w; simpl; [reflexivity|].
  apply bindM_ext. intros i w0.
  apply bindM_ext. intros [x y] w1.
  repeat (apply bindM_ext; intros). apply IH.
Qed.

(** C4 (defect): [create_lfs] draws the coverage vector [props] from the
    accuracy range.  With accuracy range [0.5, 0.9] and coverage range
    [0.1, 0.2] the recorded coverage vector of the only labeling function
    is [0.7, 0.7], outside the coverage range; and whatever the arguments,
    the coverage range has no influence on the run. *)
Theorem C4_props_drawn_from_accuracy_range :
  (exists L st w',
     create_lfs_locals X5 [1; 2; 2; 1; 2]%Z 1 false 1 5
       (5 # 10) (9 # 10) (1 # 10) (2 # 10)
       (world_of [] [0; 0; 1 # 2; 1 # 2; 1 # 2; 1 # 2]) = Ok ((L, st), w') /\
     Forall (Forall (fun p => p == 7 # 10 /\ ~ (1 # 10 <= p <= 2 # 10)))
            (props_hist st) /\
     List.length (props_hist st) = 1%nat /\
     Forall (fun props => List.length props = 2%nat) (props_hist st)) /\
  (forall X Y m unipolar min_r max_r min_acc max_acc
          min_prop max_prop min_prop' max_prop' w,
     create_lfs_locals X Y m unipolar min_r max_r min_acc max_acc
       min_prop max_prop w
     = create_lfs_locals X Y m unipolar min_r max_r min_acc max_acc
         min_prop' max_prop' w).
Proof.
  split.
  - eexists. eexists. eexists. split; [cbv; reflexivity|].
    simpl. split; [|split; [reflexivity | repeat constructor]].
    repeat (apply Forall_cons || apply Forall_nil).
    all: (split; [reflexivity | intros [_ H]; apply H; reflexivity]).
  - intros X Y m unipolar min_r max_r min_acc max_acc
      min_prop max_prop min_prop' max_prop' w.
    unfold create_lfs_locals, bindM.
    now rewrite (create_lfs_loop_ignores_prop_range X Y unipolar min_r max_r
                   min_acc max_acc min_prop max_prop min_prop' max_prop').
Qed.

Lemma np_uniform_n_range (low high : Q) :
  low <= high ->
  forall size w vs w',
    np_uniform_n low high size w = Ok (vs, w') ->
    Forall (fun v => low <= v /\ v <= high) vs.
Proof.
  intros Hle. induction size as [|size IH]; intros w vs w' H; simpl in H.
  - run_step. constructor.
  - apply bindM_Ok in H. destruct H as (v & w1 & Hv & H).
    apply bindM_Ok in H. destruct H as (rest & w2 & Hrest & H).
    run_step. constructor; [now apply np_uniform_range in Hv | eauto].
Qed.

(** what the code does draw: every recorded coverage probability lies in
    the accuracy range *)
Lemma create_lfs_loop_props_range (X : list point) (Y : list Z)
    (unipolar : bool) (min_r max_r min_acc max_acc min_prop max_prop : Q) :
  min_acc <= max_acc ->
  forall iters st w st' w',
    Forall (Forall (fun p => min_acc <= p /\ p <= max_acc)) (props_hist st) ->
    create_lfs_loop X Y unipolar min_r max_r min_acc max_acc min_prop max_prop
      iters st w = Ok (st', w') ->
    Forall (Forall (fun p => min_acc <= p /\ p <= max_acc)) (props_hist st').
Proof.
  intros Hle. induction iters as [|iters IH]; intros st w st' w' Hinv H.
  - simpl in H. now run_step.
  - cbn [create_lfs_loop] in H.
    apply bindM_Ok in H. destruct H as (i & w0 & _ & H).
    apply bindM_Ok in H. destruct H as ([x y] & w1 & _ & H).
    apply bindM_Ok in H. destruct H as (r & w2 & _ & H).
    apply bindM_Ok in H. destruct H as (region & w3 & _ & H).
    apply bindM_Ok in H. destruct H as (props & w4 & Hprops & H).
    apply bindM_Ok in H. destruct H as (accs & w5 & _ & H).
    apply bindM_Ok in H. destruct H as (l & w6 & _ & H).
    apply bindM_Ok in H. destruct H as (l' & w7 & _ & H).
    apply IH in H; [exact H|]. simpl.
    apply Forall_app. split; [exact Hinv|].
    constructor; [|constructor].
    now apply np_uniform_n_range in Hprops.
Qed.

(** ** Seeding and reproducibility *)

Section Seeding.

Variable py_seeded np_seeded torch_seeded : Z -> Rng.gen.

Let seed_all := set_random_seed py_seeded np_seeded torch_seeded.
Let generate := generate_dataset py_seeded np_seeded torch_seeded.

Lemma set_random_seed_falsy (seed : option Z) (w : world) :
  truthy seed = false -> seed_all seed w = Ok (tt, w).
Proof.
  unfold seed_all, set_random_seed, truthy.
  destruct seed as [s|]; [|reflexivity]. now intros ->.
Qed.

Lemma set_random_seed_truthy (seed : option Z) (w1 w2 : world) :
  truthy seed = true -> seed_all seed w1 = seed_all seed w2.
Proof.
  unfold seed_all, set_random_seed, truthy.
  destruct seed as [s|]; [|discriminate]. now intros ->.
Qed.

(** a run with a truthy seed does not depend on the state the generators
    were in *)
Lemma generate_dataset_seeded (fuel : nat) (k : Z) (m n : nat)
    (L_kwargs : L_kwargs_t) (X_kwargs : X_kwargs_t) (Y_kwargs : Y_kwargs_t)
    (Z_kwargs : Z_kwargs_t) (unipolar : bool) (slice_source : string)
    (plotting : bool) (seed : option Z) (w1 w2 : world) :
  truthy seed = true ->
  generate fuel k m n L_kwargs X_kwargs Y_kwargs Z_kwargs unipolar
    slice_source plotting seed w1
  = generate fuel k m n L_kwargs X_kwargs Y_kwargs Z_kwargs unipolar
      slice_source plotting seed w2.
Proof.
  intros Hseed. unfold generate, generate_dataset. unfold bindM at 1 3.
  fold seed_all. now rewrite (@set_random_seed_truthy seed w1 w2 Hseed).
Qed.

(** a run with seed 0 is the run with no seed *)
Lemma generate_dataset_zero_seed (fuel : nat) (k : Z) (m n : nat)
    (L_kwargs : L_kwargs_t) (X_kwargs : X_kwargs_t) (Y_kwargs : Y_kwargs_t)
    (Z_kwargs : Z_kwargs_t) (unipolar : bool) (slice_source : string)
    (plotting : bool) (w : world) :
  generate fuel k m n L_kwargs X_kwargs Y_kwargs Z_kwargs unipolar
    slice_source plotting (Some 0%Z) w
  = generate fuel k m n L_kwargs X_kwargs Y_kwargs Z_kwargs unipolar
      slice_source plotting None w.
Proof. reflexivity. Qed.

(** two runs with seed 0 and the same arguments, started in two states of
    the generators *)
Lemma zero_seed_runs :
  exists w1' w2',
    generate 3 2 1 4 L_kwargs_default X_kwargs_default Y_kwargs_one
      Z_kwargs_one false "random" false (Some 0%Z) (world_const 0)
    = Ok (mkDataset [[1]; [0]; [0]; [0]]%Z
                    [(0, 0); (0, 10); (10, 0); (10, 10)]
                    [1; 2; 2; 2]%Z [1; 0; 0; 0]%Z None, w1') /\
    generate 3 2 1 4 L_kwargs_default X_kwargs_default Y_kwargs_one
      Z_kwargs_one false "random" false (Some 0%Z) (world_const (1 # 2))
    = Ok (mkDataset [[0]; [0]; [1]; [0]]%Z
                    [(0, 0); (0, 10); (10, 0); (10, 10)]
                    [2; 2; 1; 2]%Z [0; 0; 1; 0]%Z None, w2').
Proof.
  eexists. eexists. split; cbv; reflexivity.
Qed.

(** C7 (defect at seed 0): for every truthy seed two runs with the same
    arguments give the same result whatever state the generators were in;
    with seed 0 the [if seed:] guard skips the seeding, and two runs with
    identical arguments return different vote matrices, labels and
    slices. *)
Theorem C7_seed_zero_breaks_determinism :
  (forall fuel k m n L_kwargs X_kwargs Y_kwargs Z_kwargs unipolar
          slice_source plotting seed w1 w2,
     truthy seed = true ->
     generate fuel k m n L_kwargs X_kwargs Y_kwargs Z_kwargs unipolar
       slice_source plotting seed w1
     = generate fuel k m n L_kwargs X_kwargs Y_kwargs Z_kwargs unipolar
         slice_source plotting seed w2) /\
  (exists w1 w2 ds1 ds2 w1' w2',
     generate 3 2 1 4 L_kwargs_default X_kwargs_default Y_kwargs_one
       Z_kwargs_one false "random" false (Some 0%Z) w1 = Ok (ds1, w1') /\
     generate 3 2 1 4 L_kwargs_default X_kwargs_default Y_kwargs_one
       Z_kwargs_one false "random" false (Some 0%Z) w2 = Ok (ds2, w2') /\
     ds_L ds1 <> ds_L ds2 /\ ds_Y ds1 <> ds_Y ds2 /\ ds_Z ds1 <> ds_Z ds2).
Proof.
  split.
  - intros. now apply generate_dataset_seeded.
  - destruct zero_seed_runs as (w1' & w2' & H1 & H2).
    exists (world_const 0), (world_const (1 # 2)).
    eexists. eexists. exists w1', w2'.
    split; [exact H1|]. split; [exact H2|].
    simpl. repeat split; discriminate.
Qed.

(** C9: the generators are seeded exactly when the seed is truthy; with
    seed 0, as with no seed, they are left as they were, a run with seed 0
    is the run with no seed, and two such runs with the same arguments
    need not agree. *)
Theorem C9_zero_seed_is_unseeded :
  (forall seed w w',
     seed_all seed w = Ok (tt, w') ->
     if truthy seed
     then exists s, seed = Some s /\
            w' = mkWorld (py_seeded s) (np_seeded s) (torch_seeded s)
     else w' = w) /\
  (forall w, seed_all (Some 0%Z) w = Ok (tt, w) /\ seed_all None w = Ok (tt, w)) /\
  (forall fuel k m n L_kwargs X_kwargs Y_kwargs Z_kwargs unipolar
          slice_source plotting w,
     generate fuel k m n L_kwargs X_kwargs Y_kwargs Z_kwargs unipolar
       slice_source plotting (Some 0%Z) w
     = generate fuel k m n L_kwargs X_kwargs Y_kwargs Z_kwargs unipolar
         slice_source plotting None w) /\
  (exists fuel k m n L_kwargs X_kwargs Y_kwargs Z_kwargs unipolar
          slice_source plotting w1 w2 ds1 ds2 w1' w2',
     generate fuel k m n L_kwargs X_kwargs Y_kwargs Z_kwargs unipolar
       slice_source plotting (Some 0%Z) w1 = Ok (ds1, w1') /\
     generate fuel k m n L_kwargs X_kwargs Y_kwargs Z_kwargs unipolar
       slice_source plotting (Some 0%Z) w2 = Ok (ds2, w2') /\
     ds1 <> ds2).
Proof.
  split; [|split; [|split]].
  - intros seed w w' H. destruct (truthy seed) eqn:Hseed.
    + destruct seed as [s|]; [|discriminate]. exists s. split; [reflexivity|].
      unfold seed_all, set_random_seed in H. simpl in Hseed. rewrite Hseed in H.
      destruct ((0 <=? s) && (s <? 2 ^ 32))%Z; [|discriminate].
      now injection H as <-.
    + rewrite (@set_random_seed_falsy seed w Hseed) in H. now injection H as <-.
  - intros w. split; reflexivity.
  - intros. apply generate_dataset_zero_seed.
  - destruct zero_seed_runs as (w1' & w2' & H1 & H2).
    do 11 eexists. exists (world_const 0), (world_const (1 # 2)).
    eexists. eexists. exists w1', w2'.
    split; [exact H1|]. split; [exact H2|]. discriminate.
Qed.

End Seeding.

Lemma C7_seed_zero_breaks_determinism_witness :
  truthy (Some 3%Z) = true /\
  generate_dataset seeded_example seeded_example seeded_example
    3 2 1 4 L_kwargs_default X_kwargs_default Y_kwargs_one Z_kwargs_one
    false "random" false (Some 3%Z) (world_const 0)
  = generate_dataset seeded_example seeded_example seeded_example
      3 2 1 4 L_kwargs_default X_kwargs_default Y_kwargs_one Z_kwargs_one
      false "random" false (Some 3%Z) (world_const (1 # 2)).
Proof.
  split; [reflexivity|].
  apply (proj1 (C7_seed_zero_breaks_determinism
                  seeded_example seeded_example seeded_example)).
  reflexivity.
Defined.

Lemma C9_zero_seed_is_unseeded_witness :
  set_random_seed seeded_example seeded_example seeded_example (Some 3%Z)
    (world_const 0)
  = Ok (tt, mkWorld (seeded_example 3) (seeded_example 3) (seeded_example 3)) /\
  exists s, Some 3%Z = Some s /\
    mkWorld (seeded_example 3) (seeded_example 3) (seeded_example 3)
    = mkWorld (seeded_example s) (seeded_example s) (seeded_example s).
Proof.
  split; [reflexivity|].
  exact (proj1 (C9_zero_seed_is_unseeded
                  seeded_example seeded_example seeded_example)
           (Some 3%Z) (world_const 0) _ eq_refl).
Defined.

(** * Further properties of the building blocks *)

(** ** [flip] *)

(** [flip] fails on the abstain vote only, answers 1 or 2 and never its
    argument; flipping twice gives the vote back exactly for the votes 1
    and 2 (any other nonzero value is sent to 2, then to 1). *)
Theorem flip_pairs_one_and_two (y : Z) :
  (flip y = Raise (Exception "Cannot flip the label of an abstain vote")
   <-> y = 0%Z) /\
  (y <> 0%Z ->
   exists v, flip y = Ok v /\ (v = 1%Z \/ v = 2%Z) /\ v <> y /\
     (bind (flip y) flip = Ok y <-> (y = 1%Z \/ y = 2%Z))).
Proof.
  unfold flip. split.
  - destruct (Z.eqb_spec y 0); split; intros H; congruence.
  - intros Hy. destruct (Z.eqb_spec y 0) as [|_]; [contradiction|].
    destruct (Z.eqb_spec y 2) as [-> | Hy2].
    + exists 1%Z. repeat split; auto; lia.
    + exists 2%Z. simpl. repeat split; auto; try lia.
      * intros H. injection H as H. lia.
      * intros [-> | ->]; [reflexivity | contradiction].
Qed.

Lemma flip_pairs_one_and_two_witness :
  (1 <> 0)%Z /\ bind (flip 1) flip = Ok 1%Z.
Proof.
  split; [discriminate|].
  destruct (proj2 (flip_pairs_one_and_two 1) ltac:(discriminate))
    as (v & _ & _ & _ & Hround).
  apply Hround. now left.
Defined.

(** ** Squares of semi-axes *)

Lemma square_pos (a : Q) : ~ a == 0 -> 0 < a ^ 2.
Proof.
  intros Ha. simpl.
  destruct (Q_dec a 0) as [[Hneg | Hpos] | Hz]; [nra | nra | contradiction].
Qed.

Lemma Qeq_bool_false (x y : Q) : ~ x == y -> Qeq_bool x y = false.
Proof.
  intros H. apply not_true_is_false. intros E.
  apply Qeq_bool_iff in E. contradiction.
Qed.

Lemma div_nonzero (x y : Q) : ~ y == 0 -> div x y = Ok (x / y).
Proof.
  intros Hy. unfold div. now rewrite (Qeq_bool_false Hy).
Qed.

(** ** Constructing rectangles and squares *)

(** [Rectangle(b, t, l, r)] is built exactly when [b < t] and [l < r];
    [Square] asks in addition for equal sides; every refusal is an
    [AssertionError]. *)
Theorem rectangle_square_construction (b t l r : Q) :
  (Rectangle b t l r = Ok (RectangleObj b t l r) <-> b < t /\ l < r) /\
  (Rectangle b t l r = Ok (RectangleObj b t l r) \/
   Rectangle b t l r = Raise AssertionError) /\
  (Square b t l r = Ok (RectangleObj b t l r)
   <-> b < t /\ l < r /\ t - b == r - l) /\
  (Square b t l r = Ok (RectangleObj b t l r) \/
   Square b t l r = Raise AssertionError).
Proof.
  unfold Square, Rectangle, assert.
  destruct (Qltb b t) eqn:Hbt; destruct (Qltb l r) eqn:Hlr;
    destruct (Qeq_bool (t - b) (r - l)) eqn:Heq; simpl;
    try apply Qltb_lt in Hbt; try apply Qltb_lt in Hlr;
    try apply Qeq_bool_iff in Heq;
    repeat split; auto; try discriminate; try tauto;
    try (intros (H1 & H2 & H3)); try (intros (H1 & H2));
    try (apply Qeq_bool_iff in H3; congruence);
    try (apply Qltb_lt in H1; congruence);
    try (apply Qltb_lt in H2; congruence).
Qed.

(** ** [get_points] *)

Lemma map_result_spec {A B : Type} (f : A -> result B) :
  forall X bs, map_result f X = Ok bs -> Forall2 (fun x b => f x = Ok b) X bs.
Proof.
  induction X as [|x X IH]; intros bs H; simpl in H.
  - injection H as <-. constructor.
  - repeat run_step. constructor; auto.
Qed.

Lemma mask_rows_filter (region : Region) :
  forall X indices,
    Forall2 (fun x b => contains region x = Ok b) X indices ->
    mask_rows X indices = filter (inside region) X.
Proof.
  unfold mask_rows. induction 1 as [|x b X indices Hx _ IH]; [reflexivity|].
  simpl. unfold inside at 1. rewrite Hx. destruct b; simpl; now rewrite IH.
Qed.

(** [get_points] returns one indicator per point, the indicator of a point
    being the answer of [contains], and as members the points whose
    indicator is [True], in the order of [X]; it raises only if [contains]
    does. *)
Theorem get_points_members (X : list point) (region : Region)
    (members : list point) (indices : list bool) :
  get_points X region = Ok (members, indices) ->
  List.length indices = List.length X /\
  Forall2 (fun x b => contains region x = Ok b) X indices /\
  members = filter (inside region) X /\
  (forall p, In p members <-> In p X /\ contains region p = Ok true) /\
  List.length members = count_occ bool_dec indices true.
Proof.
  unfold get_points. intros H. repeat run_step.
  apply map_result_spec in Hrun.
  split; [symmetry; exact (Forall2_length Hrun)|]. split; [exact Hrun|].
  split; [now apply mask_rows_filter|]. split.
  - intros p. rewrite (@mask_rows_filter region X indices Hrun), filter_In.
    unfold inside.
    split; intros [Hin Hc]; (split; [exact Hin|]).
    + destruct (contains region p) as [[|]| |]; congruence.
    + now rewrite Hc.
  - unfold mask_rows. rewrite length_map. clear -Hrun.
    induction Hrun as [|x b X indices _ _ IH]; [reflexivity|].
    simpl. destruct b; simpl; now rewrite IH.
Qed.

Lemma get_points_members_witness :
  get_points X5 (EllipseObj 10 0 2 2)
    = Ok ([(10, 0); (11, 0)], [false; true; true; false; false]) /\
  [(10, 0); (11, 0)] = filter (inside (EllipseObj 10 0 2 2)) X5.
Proof.
  split; [reflexivity|].
  exact (proj1 (proj2 (proj2
           (@get_points_members X5 (EllipseObj 10 0 2 2) _ _ eq_refl)))).
Defined.

(** ** The point field *)

Lemma linspace_length (start stop : Q) (num : nat) :
  List.length (linspace start stop num) = num.
Proof.
  unfold linspace. destruct num as [|[|num]]; try reflexivity.
  now rewrite length_map, length_seq.
Qed.

Lemma linspace_In_range (start stop : Q) (num : nat) (v : Q) :
  start <= stop -> In v (linspace start stop num) ->
  start <= v /\ v <= stop.
Proof.
  intros Hle Hin. unfold linspace in Hin.
  destruct num as [|[|num]].
  - destruct Hin.
  - destruct Hin as [<- | []]. split; [apply Qle_refl | exact Hle].
  - apply in_map_iff in Hin. destruct Hin as (i & <- & Hi).
    apply in_seq in Hi.
    set (N := inject_Z (Z.of_nat (S (S num) - 1))).
    set (I := inject_Z (Z.of_nat i)).
    assert (HN : 0 < N).
    { unfold N. rewrite <- (Zlt_Qlt 0). lia. }
    assert (HI : 0 <= I /\ I <= N).
    { unfold I, N. rewrite <- (Zle_Qle 0), <- Zle_Qle. lia. }
    set (d := (stop - start) / N).
    assert (Hd : d * N == stop - start).
    { unfold d. field. apply Qnot_eq_sym, Qlt_not_eq. exact HN. }
    assert (Hd0 : 0 <= d).
    { unfold d. apply Qle_shift_div_l; [exact HN|]. lra. }
    destruct HI as [HI0 HI1]. split; nra.
Qed.

(** [np.linspace(start, stop, num)] as the grid uses it: [num] values,
    the first [start] and, from two values on, the last [stop]; with
    [start <= stop] every value lies between them. *)
Theorem linspace_endpoints (start stop : Q) (num : nat) :
  List.length (linspace start stop num) = num /\
  ((1 <= num)%nat -> exists v, hd_error (linspace start stop num) = Some v /\
                               v == start) /\
  ((2 <= num)%nat -> last (linspace start stop num) 0 == stop) /\
  (start <= stop ->
   Forall (fun v => start <= v /\ v <= stop) (linspace start stop num)).
Proof.
  split; [apply linspace_length|]. split; [|split].
  - intros Hn. unfold linspace. destruct num as [|[|num]]; [lia| |].
    + exists start. split; reflexivity.
    + eexists. split; [reflexivity|]. change (inject_Z (Z.of_nat 0)) with 0. ring.
  - intros Hn. unfold linspace. destruct num as [|[|num]]; [lia|lia|].
    set (n := S (S num)).
    replace (seq 0 n) with (seq 0 (S num) ++ [S num])
      by (unfold n; now rewrite <- seq_S).
    rewrite map_app. simpl (map _ [S num]). rewrite last_last.
    replace (n - 1)%nat with (S num) by (unfold n; lia).
    field. intros H. apply (Qlt_not_eq 0 (inject_Z (Z.of_nat (S num)))).
    + rewrite <- (Zlt_Qlt 0). lia.
    + now symmetry.
  - intros Hle. apply Forall_forall. intros v Hv.
    now apply linspace_In_range with (num := num).
Qed.

Lemma linspace_endpoints_witness :
  (2 <= 3)%nat /\ 0 <= 10 /\
  last (linspace 0 10 3) 0 == 10 /\
  Forall (fun v => 0 <= v /\ v <= 10) (linspace 0 10 3).
Proof.
  assert (H23 : (2 <= 3)%nat) by lia.
  assert (H010 : 0 <= 10) by discriminate.
  destruct (linspace_endpoints 0 10 3) as (_ & _ & Hlast & Hrange).
  split; [exact H23|]. split; [exact H010|].
  split; [exact (Hlast H23) | exact (Hrange H010)].
Defined.

Lemma in_firstn_In {A : Type} (n : nat) (l : list A) (a : A) :
  In a (firstn n l) -> In a l.
Proof.
  intros H. rewrite <- (firstn_skipn n l). apply in_or_app. now left.
Qed.

Lemma in_box_combine (b t l r : Q) :
  forall xs ys,
    Forall (fun v => l <= v /\ v <= r) xs ->
    Forall (fun v => b <= v /\ v <= t) ys ->
    Forall (in_box b t l r) (combine xs ys).
Proof.
  induction xs as [|x xs IH]; intros ys Hx Hy; [constructor|].
  destruct ys as [|y ys]; [constructor|].
  inversion Hx; inversion Hy; subst. simpl.
  constructor; [split; assumption | auto].
Qed.

(** In grid mode [create_points] draws no random number; for [n >= 1] it
    returns exactly [n] points, all in the closed box of the rectangle.  An
    argument that is no [Rectangle] fails the [isinstance] assertion in
    either mode. *)
Theorem create_points_grid (b t l r : Q) (n : nat) (w : world) :
  (forall h k a c random,
     create_points (EllipseObj h k a c) n random w = Raise AssertionError) /\
  ((1 <= n)%nat -> b <= t -> l <= r ->
   exists X,
     create_points (RectangleObj b t l r) n false w = Ok (X, w) /\
     List.length X = n /\ Forall (in_box b t l r) X).
Proof.
  split; [reflexivity|].
  intros Hn Hbt Hlr. unfold create_points.
  destruct n as [|n']; [lia|]. set (n := S n') in *.
  eexists. split; [reflexivity|].
  set (s := Nat.sqrt_up n). split.
  - apply firstn_length_le.
    rewrite (flat_map_constant_length (c := s)).
    + rewrite linspace_length.
      destruct (Nat.sqrt_up_spec n) as [_ Hs]; [lia|].
      fold s in Hs. simpl in Hs. exact Hs.
    + intros x _. now rewrite length_map, linspace_length.
  - apply Forall_forall. intros p Hp.
    apply in_firstn_In in Hp.
    apply in_flat_map in Hp. destruct Hp as (x & Hx & Hp).
    apply in_map_iff in Hp. destruct Hp as (y & <- & Hy).
    split; simpl; eapply linspace_In_range; eauto.
Qed.

Lemma create_points_grid_witness :
  (1 <= 4)%nat /\ 0 <= 10 /\
  create_points (RectangleObj 0 10 0 10) 4 false (world_const 0)
    = Ok ([(0, 0); (0, 10); (10, 0); (10, 10)], world_const 0) /\
  Forall (in_box 0 10 0 10) [(0, 0); (0, 10); (10, 0); (10, 10)].
Proof.
  assert (H14 : (1 <= 4)%nat) by lia.
  assert (H010 : 0 <= 10) by discriminate.
  destruct (proj2 (create_points_grid 0 10 0 10 4 (world_const 0))
              H14 H010 H010) as (X & HX & _ & Hbox).
  split; [exact H14|]. split; [exact H010|].
  assert (E : X = [(0, 0); (0, 10); (10, 0); (10, 10)]).
  { vm_compute in HX. now injection HX as <-. }
  rewrite E in HX, Hbox. split; [exact HX | exact Hbox].
Defined.

(** ** Which generators a run can see *)

Section Blind.

Variable R : world -> world -> Prop.

Lemma blind_ret {A : Type} (a : A) : blind R (ret a).
Proof. intros w1 w2 H. simpl. now split. Qed.

Lemma blind_lift {A : Type} (r : result A) : blind R (lift r).
Proof. intros w1 w2 H. unfold lift. destruct r; simpl; auto. Qed.

Lemma blind_bind {A B : Type} (c : M A) (k : A -> M B) :
  blind R c -> (forall a, blind R (k a)) -> blind R (bindM c k).
Proof.
  intros Hc Hk w1 w2 H. unfold bindM. specialize (Hc w1 w2 H).
  unfold agree in Hc.
  destruct (c w1) as [[a1 w1'] | e1 |], (c w2) as [[a2 w2'] | e2 |];
    try contradiction; simpl; auto.
  destruct Hc as [-> Hw]. now apply Hk.
Qed.

(** the computations built from [np.random] alone *)
Hypothesis blind_np : blind R np_random_sample.

Ltac blind_step :=
  match goal with
  | |- blind _ (bindM _ _) => apply blind_bind; [|intros ?]
  | |- blind _ (ret _) => apply blind_ret
  | |- blind _ (lift _) => apply blind_lift
  | |- blind _ np_random_sample => exact blind_np
  | |- blind _ (match ?p with (_, _) => _ end) => destruct p
  | |- blind _ (if ?b then _ else _) => destruct b
  | |- blind _ (match ?o with Some _ => _ | None => _ end) => destruct o
  end.

Lemma blind_np_uniform (low high : Q) : blind R (np_uniform low high).
Proof. unfold np_uniform. repeat blind_step. Qed.

Lemma blind_np_uniform_n (low high : Q) (size : nat) :
  blind R (np_uniform_n low high size).
Proof.
  induction size as [|size IH]; simpl; repeat blind_step;
    auto using blind_np_uniform.
Qed.

Lemma blind_np_index_below (n : nat) : blind R (np_index_below n).
Proof. unfold np_index_below. repeat blind_step. Qed.

Lemma blind_np_randint (low high : Z) : blind R (np_randint low high).
Proof.
  unfold np_randint. repeat blind_step; auto using blind_np_index_below.
Qed.

Lemma blind_np_choice_range (n : nat) : blind R (np_choice_range n).
Proof.
  unfold np_choice_range. destruct n; [apply blind_lift|].
  apply blind_np_index_below.
Qed.

Lemma blind_np_choice_range_n (n size : nat) :
  blind R (np_choice_range_n n size).
Proof.
  induction size as [|size IH]; simpl; repeat blind_step;
    auto using blind_np_choice_range.
Qed.

Lemma blind_np_choice_noreplace {A : Type} (size : nat) :
  forall a : list A, blind R (np_choice_noreplace a size).
Proof.
  induction size as [|size IH]; intros a; simpl; repeat blind_step;
    auto using blind_np_choice_range.
Qed.

Lemma blind_create_points (rect : Region) (n : nat) (random : bool) :
  blind R (create_points rect n random).
Proof.
  unfold create_points. destruct rect; [|apply blind_lift].
  destruct random; [|destruct n; repeat blind_step].
  repeat blind_step; auto using blind_np_uniform_n.
Qed.

Lemma blind_create_labels_loop (X : list point) (min_a max_a : Q) (iters : nat) :
  forall Y regions, blind R (create_labels_loop X min_a max_a iters Y regions).
Proof.
  induction iters as [|iters IH]; intros Y regions; simpl; repeat blind_step;
    auto using blind_np_choice_range, blind_np_uniform.
Qed.

Lemma blind_create_labels (X : list point) (k : Z) (num_clusters : nat)
    (min_a max_a : Q) :
  blind R (create_labels X k num_clusters min_a max_a).
Proof. apply blind_create_labels_loop. Qed.

Lemma blind_choose_centers (X : list point) (L : list (list Z))
    (slice_source : string) (lf_regions : option (list Region))
    (num_slices : nat) (max_a : Q) :
  blind R (choose_centers X L slice_source lf_regions num_slices max_a).
Proof.
  unfold choose_centers. repeat blind_step;
    auto using blind_np_choice_range_n, blind_np_choice_noreplace.
Qed.

Lemma blind_create_slices_for (X centers : list point) (min_a max_a : Q)
    (iters : nat) :
  forall i Zs regions,
    blind R (create_slices_for X centers min_a max_a iters i Zs regions).
Proof.
  induction iters as [|iters IH]; intros i Zs regions; simpl;
    repeat blind_step; auto using blind_np_uniform.
Qed.

Lemma blind_create_slices_while (X : list point) (L : list (list Z))
    (slice_source : string) (lf_regions : option (list Region))
    (num_slices : nat) (min_slice_size : Z) (min_a max_a : Q) (fuel : nat) :
  forall Zs regions,
    blind R (create_slices_while fuel X L slice_source lf_regions num_slices
               min_slice_size min_a max_a Zs regions).
Proof.
  induction fuel as [|fuel IH]; intros Zs regions; simpl;
    [apply blind_lift|].
  repeat blind_step;
    auto using blind_choose_centers, blind_create_slices_for.
Qed.

(** the computations that also use [random] *)
Hypothesis blind_py : blind R random_random.

Lemma blind_vote (y : Z) (props accs : list Q) : blind R (vote y props accs).
Proof.
  unfold vote. repeat blind_step; exact blind_py.
Qed.

Lemma blind_assign_l (region : Region) (props accs : list Q) :
  forall X Y, blind R (assign_l X Y region props accs).
Proof.
  induction X as [|x X IH]; intros Y; destruct Y as [|y Y]; simpl;
    repeat blind_step; auto using blind_vote, blind_ret.
Qed.

Lemma blind_create_lfs_loop (X : list point) (Y : list Z) (unipolar : bool)
    (min_r max_r min_acc max_acc min_prop max_prop : Q) (iters : nat) :
  forall st,
    blind R (create_lfs_loop X Y unipolar min_r max_r min_acc max_acc
               min_prop max_prop iters st).
Proof.
  induction iters as [|iters IH]; intros st; simpl; repeat blind_step;
    auto using blind_np_choice_range, blind_np_uniform, blind_assign_l,
               blind_np_randint.
Qed.

Lemma blind_create_lfs (X : list point) (Y : list Z) (m : nat)
    (unipolar : bool) (min_r max_r min_acc max_acc min_prop max_prop : Q) :
  blind R (create_lfs X Y m unipolar min_r max_r min_acc max_acc
             min_prop max_prop).
Proof.
  unfold create_lfs, create_lfs_locals. repeat blind_step;
    auto using blind_create_lfs_loop.
Qed.

End Blind.

Lemma blind_np_same_py_np : blind same_py_np np_random_sample.
Proof.
  intros w1 w2 [Hpy Hnp]. unfold np_random_sample. rewrite Hnp.
  destruct (Rng.next (np_random w2)) as [u g]. simpl.
  split; [reflexivity|]. split; [exact Hpy | reflexivity].
Qed.

Lemma blind_py_same_py_np : blind same_py_np random_random.
Proof.
  intros w1 w2 [Hpy Hnp]. unfold random_random. rewrite Hpy.
  destruct (Rng.next (py_random w2)) as [u g]. simpl.
  split; [reflexivity|]. split; [reflexivity | exact Hnp].
Qed.

Lemma blind_np_same_np : blind same_np np_random_sample.
Proof.
  intros w1 w2 Hnp. unfold same_np in Hnp. unfold np_random_sample.
  rewrite Hnp. destruct (Rng.next (np_random w2)) as [u g]. simpl.
  now split.
Qed.

Lemma agree_returned {A : Type} (R : world -> world -> Prop)
    (r1 r2 : result (A * world)) :
  agree R r1 r2 -> returned r1 = returned r2.
Proof.
  unfold agree, returned.
  destruct r1 as [[a1 w1] | e1 |], r2 as [[a2 w2] | e2 |];
    try contradiction; intros H; try reflexivity.
  - now destruct H as [-> _].
  - now subst.
Qed.

Lemma blind_set_random_seed (py_seeded np_seeded torch_seeded : Z -> Rng.gen)
    (seed : option Z) :
  blind same_py_np (set_random_seed py_seeded np_seeded torch_seeded seed).
Proof.
  intros w1 w2 H. unfold set_random_seed.
  destruct seed as [s|]; [|now split].
  destruct (negb (s =? 0)%Z); [|now split].
  destruct ((0 <=? s) && (s <? 2 ^ 32))%Z; simpl; [|reflexivity].
  split; [reflexivity|]. now split.
Qed.

(** What [generate_dataset] returns (or the exception it raises) does not
    depend on the state of torch's generator: no random number of the
    generation is drawn from it, whether it was seeded or not. *)
Theorem generate_dataset_ignores_torch
    (py_seeded np_seeded torch_seeded : Z -> Rng.gen)
    (fuel : nat) (k : Z) (m n : nat)
    (L_kwargs : L_kwargs_t) (X_kwargs : X_kwargs_t) (Y_kwargs : Y_kwargs_t)
    (Z_kwargs : Z_kwargs_t) (unipolar : bool) (slice_source : string)
    (plotting : bool) (seed : option Z) (py np torch1 torch2 : Rng.gen) :
  returned (generate_dataset py_seeded np_seeded torch_seeded fuel k m n
              L_kwargs X_kwargs Y_kwargs Z_kwargs unipolar slice_source
              plotting seed (mkWorld py np torch1))
  = returned (generate_dataset py_seeded np_seeded torch_seeded fuel k m n
                L_kwargs X_kwargs Y_kwargs Z_kwargs unipolar slice_source
                plotting seed (mkWorld py np torch2)).
Proof.
  apply (@agree_returned _ same_py_np).
  assert (Hb : blind same_py_np
                 (generate_dataset py_seeded np_seeded torch_seeded fuel k m n
                    L_kwargs X_kwargs Y_kwargs Z_kwargs unipolar slice_source
                    plotting seed)).
  { unfold generate_dataset.
    apply blind_bind; [apply blind_set_random_seed | intros _].
    apply blind_bind; [apply blind_lift | intros canvas].
    apply blind_bind;
      [apply blind_create_points, blind_np_same_py_np | intros X].
    apply blind_bind;
      [apply blind_create_labels, blind_np_same_py_np | intros [Y lr]].
    apply blind_bind;
      [apply blind_create_lfs;
         [apply blind_np_same_py_np | apply blind_py_same_py_np]
      | intros [L lf]].
    apply blind_bind;
      [apply blind_create_slices_while, blind_np_same_py_np | intros [Zs sr]].
    apply blind_bind; [apply blind_lift | intros _].
    apply blind_bind; [|intros ?; apply blind_ret].
    destruct (String.eqb slice_source "lfs"); [|apply blind_ret].
    apply blind_bind; [apply blind_lift | intros ?; apply blind_ret]. }
  apply Hb. now split.
Qed.

(** The points, the labels and the slices are computed from [np.random]
    alone: with the same state of [np.random], [create_points],
    [create_labels] and [create_slices] return the same values (or fail
    alike) whatever the states of [random] and of torch's generator.  The
    votes are not: [create_lfs] draws them from [random], and two states
    of [random] give two vote matrices. *)
Theorem labels_and_slices_use_numpy_only (py1 py2 np torch1 torch2 : Rng.gen) :
  (forall rect n random,
     returned (create_points rect n random (mkWorld py1 np torch1))
     = returned (create_points rect n random (mkWorld py2 np torch2))) /\
  (forall X k num_clusters min_a max_a,
     returned (create_labels X k num_clusters min_a max_a
                 (mkWorld py1 np torch1))
     = returned (create_labels X k num_clusters min_a max_a
                   (mkWorld py2 np torch2))) /\
  (forall fuel X Y L slice_source lf_regions num_slices min_slice_size
          min_a max_a,
     returned (create_slices fuel X Y L slice_source lf_regions num_slices
                 min_slice_size min_a max_a (mkWorld py1 np torch1))
     = returned (create_slices fuel X Y L slice_source lf_regions num_slices
                   min_slice_size min_a max_a (mkWorld py2 np torch2))) /\
  returned (create_lfs X5 [1; 1; 1; 2; 2]%Z 1 false 1 5 (5 # 10) (9 # 10)
              (5 # 10) (9 # 10)
              (mkWorld (gen_const 0) (gen_const 0) torch1))
  <> returned (create_lfs X5 [1; 1; 1; 2; 2]%Z 1 false 1 5 (5 # 10) (9 # 10)
                 (5 # 10) (9 # 10)
                 (mkWorld (gen_const (99 # 100)) (gen_const 0) torch1)).
Proof.
  assert (Hw : same_np (mkWorld py1 np torch1) (mkWorld py2 np torch2))
    by reflexivity.
  split; [|split; [|split]].
  - intros. apply (@agree_returned _ same_np).
    exact (@blind_create_points same_np blind_np_same_np _ _ _ _ _ Hw).
  - intros. apply (@agree_returned _ same_np).
    exact (@blind_create_labels same_np blind_np_same_np _ _ _ _ _ _ _ Hw).
  - intros. apply (@agree_returned _ same_np). unfold create_slices.
    exact (@blind_create_slices_while same_np blind_np_same_np
             _ _ _ _ _ _ _ _ _ _ _ _ _ Hw).
  - vm_compute. discriminate.
Qed.

Lemma np_uniform_n_runs (low high : Q) :
  forall size w,
    exists vs w',
      np_uniform_n low high size w = Ok (vs, w') /\
      List.length vs = size /\
      py_random w' = py_random w /\ torch_random w' = torch_random w.
Proof.
  induction size as [|size IH]; intros w; simpl.
  - exists [], w. repeat split.
  - unfold bindM at 1. unfold np_uniform, np_random_sample, bindM, ret.
    destruct (Rng.next (np_random w)) as [u g] eqn:Hu. simpl.
    set (w1 := mkWorld (py_random w) g (torch_random w)).
    destruct (IH w1) as (vs & w' & Hvs & Hlen & Hpy & Ht).
    fold (np_uniform_n low high size). unfold bindM in Hvs |- *.
    rewrite Hvs. eexists. eexists. split; [reflexivity|].
    simpl. repeat split; [now rewrite Hlen | exact Hpy | exact Ht].
Qed.

(** In random mode [create_points] always returns: [n] points of the
    closed box of the rectangle, drawn from [np.random] only. *)
Theorem create_points_random (b t l r : Q) (n : nat) (w : world) :
  b <= t -> l <= r ->
  exists X w',
    create_points (RectangleObj b t l r) n true w = Ok (X, w') /\
    List.length X = n /\ Forall (in_box b t l r) X /\
    py_random w' = py_random w /\ torch_random w' = torch_random w.
Proof.
  intros Hbt Hlr. unfold create_points.
  destruct (np_uniform_n_runs l r n w) as (xs & w1 & Hx & Hlx & Hpy1 & Ht1).
  destruct (np_uniform_n_runs b t n w1) as (ys & w2 & Hy & Hly & Hpy2 & Ht2).
  exists (combine xs ys), w2. unfold bindM. rewrite Hx, Hy. simpl.
  split; [reflexivity|]. split; [|split; [|split]].
  - etransitivity; [exact (length_combine xs ys) | lia].
  - apply in_box_combine.
    + eapply np_uniform_n_range; eauto.
    + eapply np_uniform_n_range; eauto.
  - congruence.
  - congruence.
Qed.

Lemma create_points_random_witness :
  0 <= 10 /\
  exists X w',
    create_points (RectangleObj 0 10 0 10) 2 true
      (world_of [] [1 # 2; 1 # 4; 1 # 10; 9 # 10]) = Ok (X, w') /\
    List.length X = 2%nat /\ Forall (in_box 0 10 0 10) X.
Proof.
  assert (H010 : 0 <= 10) by discriminate.
  split; [exact H010|].
  destruct (@create_points_random 0 10 0 10 2
              (world_of [] [1 # 2; 1 # 4; 1 # 10; 9 # 10]) H010 H010)
    as (X & w' & HX & Hlen & Hbox & _).
  exists X, w'. repeat split; assumption.
Defined.

(** ** More on the conflict ranking *)

Lemma scored_examples_runs (L : list (list Z)) :
  forall X i,
    ((List.length X + i <= List.length L)%nat ->
     exists scored, scored_examples X L i = Ok scored) /\
    ((List.length L < List.length X + i)%nat -> X <> [] ->
     scored_examples X L i = Raise IndexError).
Proof.
  induction X as [|x X IH]; intros i; simpl.
  - split; [now exists [] | intros _ H; contradiction].
  - destruct (IH (S i)) as [IHok IHerr]. unfold row. split.
    + intros Hlen.
      destruct (nth_error L i) as [L_i|] eqn:HL;
        [|apply nth_error_None in HL; lia].
      destruct IHok as [scored Hs]; [lia|]. simpl. rewrite Hs. simpl.
      rewrite conflict_func_score. simpl. eauto.
    + intros Hlen _.
      destruct (nth_error L i) as [L_i|] eqn:HL; [|reflexivity]. simpl.
      assert (Hi : (i < List.length L)%nat)
        by (apply nth_error_Some; congruence).
      destruct X as [|x' X']; [simpl in Hlen; lia|].
      rewrite IHerr; [reflexivity | simpl in *; lia | discriminate].
Qed.

Lemma rank_by_conflict_outcome (X : list point) (L : list (list Z)) :
  ((List.length X <= List.length L)%nat ->
   exists ranked, rank_by_conflict X L = Ok ranked) /\
  ((List.length L < List.length X)%nat ->
   rank_by_conflict X L = Raise IndexError) /\
  rank_by_conflict X L <> Raise AssertionError.
Proof.
  unfold rank_by_conflict. destruct (scored_examples_runs L X 0) as [Hok Herr].
  assert (Hlt : (List.length L < List.length X)%nat ->
                bind (scored_examples X L 0) (fun s => Ok (sorted_desc s))
                = Raise IndexError).
  { intros H. rewrite Herr; [reflexivity | lia |].
    intros ->. simpl in H. lia. }
  split; [|split].
  - intros H. destruct Hok as [scored Hs]; [lia|]. rewrite Hs. simpl. eauto.
  - exact Hlt.
  - destruct (Nat.le_gt_cases (List.length X) (List.length L)) as [H | H].
    + destruct Hok as [scored Hs]; [lia|]. rewrite Hs. discriminate.
    + rewrite (Hlt H). discriminate.
Qed.

(** [rank_by_conflict] returns exactly when [L] has a row for every point
    of [X]; otherwise it raises [IndexError].  The assertion of
    [conflict_func] never fails, the abstentions having been filtered
    out. *)
Theorem rank_by_conflict_needs_rows (X : list point) (L : list (list Z)) :
  ((List.length X <= List.length L)%nat ->
   exists ranked, rank_by_conflict X L = Ok ranked) /\
  ((List.length L < List.length X)%nat ->
   rank_by_conflict X L = Raise IndexError) /\
  rank_by_conflict X L <> Raise AssertionError.
Proof. exact (rank_by_conflict_outcome X L). Qed.

Lemma rank_by_conflict_needs_rows_witness :
  (List.length [(0, 0); (1, 1)] <= List.length [[1; 2]; [0; 1]]%Z)%nat /\
  exists ranked, rank_by_conflict [(0, 0); (1, 1)] [[1; 2]; [0; 1]]%Z = Ok ranked.
Proof.
  assert (H : (List.length [(0, 0); (1, 1)]
               <= List.length [[1; 2]; [0; 1]]%Z)%nat) by (simpl; lia).
  split; [exact H|].
  exact (proj1 (rank_by_conflict_needs_rows [(0, 0); (1, 1)]
                  [[1; 2]; [0; 1]]%Z) H).
Defined.

Lemma insert_desc_split {A : Type} (e : Q * A) (l : list (Q * A)) :
  exists l1 l2, l = l1 ++ l2 /\ insert_desc e l = l1 ++ e :: l2 /\
    Forall (fun e' => fst e < fst e') l1.
Proof.
  induction l as [|e' l IH]; simpl.
  - exists [], []. repeat split. constructor.
  - destruct (Qle_bool (fst e') (fst e)) eqn:Hle.
    + exists [], (e' :: l). repeat split. constructor.
    + destruct IH as (l1 & l2 & -> & -> & Hl1).
      exists (e' :: l1), l2. repeat split. constructor; [|exact Hl1].
      apply Qnot_le_lt. intros Hc. apply Qle_bool_iff in Hc. congruence.
Qed.

Lemma sorted_desc_stable {A : Type} (q : Q) (l : list (Q * A)) :
  filter (fun e => Qeq_bool (fst e) q) (sorted_desc l)
  = filter (fun e => Qeq_bool (fst e) q) l.
Proof.
  induction l as [|e l IH]; [reflexivity|]. simpl sorted_desc.
  destruct (insert_desc_split e (sorted_desc l)) as (l1 & l2 & Hl & -> & Hl1).
  rewrite Hl in IH. rewrite filter_app in IH |- *. simpl.
  destruct (Qeq_bool (fst e) q) eqn:Heq.
  - apply Qeq_bool_iff in Heq.
    assert (Hnone : filter (fun e0 => Qeq_bool (fst e0) q) l1 = []).
    { clear - Hl1 Heq. induction Hl1 as [|e' l1 He' _ IHl]; [reflexivity|].
      simpl. rewrite IHl.
      rewrite (Qeq_bool_false (x := fst e') (y := q)); [reflexivity|].
      intros Hc. rewrite Heq in He'. rewrite Hc in He'.
      exact (Qlt_irrefl _ He'). }
    rewrite Hnone in IH |- *. simpl in *. now rewrite IH.
  - exact IH.
Qed.

(** The ranking is stable: the points that share a score stand in the
    ranking in the order they have in [X]. *)
Theorem rank_by_conflict_stable (X : list point) (L : list (list Z))
    (ranked : list (Q * point)) (q : Q) :
  rank_by_conflict X L = Ok ranked ->
  filter (fun e => Qeq_bool (fst e) q) ranked
  = filter (fun e => Qeq_bool (fst e) q)
      (map (fun xl => (spec_conflict_score (snd xl), fst xl)) (combine X L)).
Proof.
  unfold rank_by_conflict. intros H. repeat run_step.
  apply scored_examples_spec in Hrun. destruct Hrun as [_ ->].
  apply sorted_desc_stable.
Qed.

Lemma rank_by_conflict_stable_witness :
  rank_by_conflict [(0, 0); (1, 1); (2, 2)] [[1; 1]; [1; 2]; [2; 2]]%Z
    = Ok [(204 # 200, (1, 1)); (4 # 200, (0, 0)); (4 # 200, (2, 2))] /\
  filter (fun e => Qeq_bool (fst e) (2 # 100))
    [(204 # 200, (1, 1)); (4 # 200, (0, 0)); (4 # 200, (2, 2))]
  = filter (fun e => Qeq_bool (fst e) (2 # 100))
      (map (fun xl => (spec_conflict_score (snd xl), fst xl))
         (combine [(0, 0); (1, 1); (2, 2)] [[1; 1]; [1; 2]; [2; 2]]%Z)).
Proof.
  split; [reflexivity|].
  exact (@rank_by_conflict_stable
           [(0, 0); (1, 1); (2, 2)] [[1; 1]; [1; 2]; [2; 2]]%Z
           [(204 # 200, (1, 1)); (4 # 200, (0, 0)); (4 # 200, (2, 2))]
           (2 # 100) eq_refl).
Defined.

Lemma count_one_two_le (votes : list Z) :
  (count_occ Z.eq_dec votes 1%Z + count_occ Z.eq_dec votes 2%Z
   <= List.length votes)%nat.
Proof.
  induction votes as [|v votes IH]; simpl; [lia|].
  destruct (Z.eq_dec v 1), (Z.eq_dec v 2); lia.
Qed.

(** A score lies between [0.01 n] and [0.51 n], [n] being the number of
    nonzero votes of the row: the pair count [(n - |c1 - c2|) / 2] is never
    negative and never above [n / 2]. *)
Theorem conflict_score_bounds (L_i : list Z) :
  let n := inject_Z (Z.of_nat (List.length (nonzero_votes L_i))) in
  conflict_func (nonzero_votes L_i) = Ok (spec_conflict_score L_i) /\
  (1 # 100) * n <= spec_conflict_score L_i /\
  spec_conflict_score L_i <= (51 # 100) * n.
Proof.
  intros n. split; [apply conflict_func_score|].
  unfold spec_conflict_score. fold (nonzero_votes L_i). fold n.
  pose proof (count_one_two_le (nonzero_votes L_i)) as Hc.
  set (c1 := Z.of_nat (count_occ Z.eq_dec (nonzero_votes L_i) 1%Z)) in *.
  set (c2 := Z.of_nat (count_occ Z.eq_dec (nonzero_votes L_i) 2%Z)) in *.
  assert (Ha : (0 <= Z.abs (c1 - c2)
                <= Z.of_nat (List.length (nonzero_votes L_i)))%Z)
    by (unfold c1, c2; lia).
  destruct Ha as [Ha0 Ha1].
  rewrite Zle_Qle in Ha0, Ha1. fold n in Ha1.
  set (a := inject_Z (Z.abs (c1 - c2))) in *.
  change (inject_Z 0) with 0 in Ha0.
  split.
  - assert (H : 0 <= (n - a) / 2) by (apply Qle_shift_div_l; lra). lra.
  - assert (H : (n - a) / 2 <= n / 2).
    { apply Qle_shift_div_r; [reflexivity|].
      setoid_replace (n / 2 * 2) with n by field. lra. }
    setoid_replace ((51 # 100) * n) with (n / 2 + (1 # 100) * n) by field.
    lra.
Qed.

(** ** Choosing centers by conflict *)

Lemma rank_by_conflict_ranked (X : list point) (L : list (list Z))
    (ranked : list (Q * point)) :
  rank_by_conflict X L = Ok ranked ->
  Permutation ranked
    (map (fun xl => (spec_conflict_score (snd xl), fst xl)) (combine X L)) /\
  StronglySorted score_ge ranked.
Proof.
  unfold rank_by_conflict. intros H. repeat run_step.
  apply scored_examples_spec in Hrun. destruct Hrun as [_ ->].
  split; [apply sorted_desc_perm | apply sorted_desc_sorted].
Qed.

Lemma ranked_points_in_X (X : list point) (L : list (list Z))
    (ranked : list (Q * point)) :
  rank_by_conflict X L = Ok ranked ->
  forall e, In e ranked -> In (snd e) X.
Proof.
  intros H e He. destruct (@rank_by_conflict_ranked _ _ _ H) as [Hperm _].
  apply (Permutation_in _ Hperm) in He.
  apply in_map_iff in He. destruct He as ([x L_i] & <- & Hin).
  simpl. now apply in_combine_l in Hin.
Qed.

Lemma index_first {A : Type} (l : list A) (a : A) :
  index l 0 = Ok a -> exists l', l = a :: l'.
Proof.
  unfold index. destruct l as [|a0 l']; simpl; [discriminate|].
  intros H. injection H as <-. now exists l'.
Qed.

Lemma index_last {A : Type} (l : list A) (a : A) :
  index l (-1) = Ok a -> exists l', l = l' ++ [a].
Proof.
  unfold index. intros H.
  destruct (exists_last (l := l)) as (l' & a' & ->).
  - intros ->. discriminate H.
  - exists l'. f_equal. f_equal.
    change (-1 <? 0)%Z with true in H. cbv iota in H.
    rewrite length_app in H. simpl List.length in H.
    replace (Z.to_nat (Z.of_nat (List.length l' + 1) + -1)) with (List.length l')
      in H by lia.
    destruct ((_ <? 0) || _)%Z; [discriminate|].
    rewrite nth_error_app2, Nat.sub_diag in H by lia.
    simpl in H. now injection H.
Qed.

Lemma sorted_last_least {A : Type} (l : list (Q * A)) (a : Q * A) :
  StronglySorted score_ge (l ++ [a]) ->
  forall e, In e (l ++ [a]) -> fst a <= fst e.
Proof.
  induction l as [|e0 l IH]; simpl; intros Hs e He.
  - destruct He as [<- | []]. apply Qle_refl.
  - inversion Hs as [|? ? Hs' Hall]; subst. destruct He as [<- | He].
    + rewrite Forall_forall in Hall. apply (Hall a).
      apply in_or_app. right. now left.
    + now apply IH.
Qed.

(** [select_maxmin_points] insists on two slices ([AssertionError]
    otherwise) and needs a point to rank ([IndexError] on an empty [X]).
    When it returns, it returns two points of [X]: one of greatest
    conflict score, then one of least. *)
Theorem select_maxmin_points_extremes (X : list point) (L : list (list Z))
    (num_slices : nat) :
  (num_slices <> 2%nat ->
   select_maxmin_points X L num_slices = Raise AssertionError) /\
  select_maxmin_points [] L 2 = Raise IndexError /\
  (forall centers,
     select_maxmin_points X L num_slices = Ok centers ->
     num_slices = 2%nat /\
     exists ranked hi lo,
       rank_by_conflict X L = Ok ranked /\
       In hi ranked /\ In lo ranked /\ centers = [snd hi; snd lo] /\
       In (snd hi) X /\ In (snd lo) X /\
       forall e, In e ranked -> fst lo <= fst e /\ fst e <= fst hi).
Proof.
  unfold select_maxmin_points. split; [|split].
  - intros Hn. apply Nat.eqb_neq in Hn. now rewrite Hn.
  - reflexivity.
  - intros centers H. repeat run_step.
    unfold assert in Hrun. destruct (Nat.eqb_spec num_slices 2); [|discriminate].
    split; [assumption|].
    exists a0, a1, a2. split; [exact Hrun0|].
    destruct (@rank_by_conflict_ranked _ _ _ Hrun0) as [_ Hsorted].
    destruct (@index_first _ _ _ Hrun1) as (tl & Hhd).
    destruct (@index_last _ _ _ Hrun2) as (front & Hlast).
    assert (Hin1 : In a1 a0) by (rewrite Hhd; now left).
    assert (Hin2 : In a2 a0)
      by (rewrite Hlast; apply in_or_app; right; now left).
    repeat split; auto.
    + eapply ranked_points_in_X; eauto.
    + eapply ranked_points_in_X; eauto.
    + rewrite Hlast in Hsorted, H. now apply sorted_last_least with (l := front).
    + rewrite Hhd in Hsorted, H. inversion Hsorted as [|? ? _ Hall]; subst.
      destruct H as [<- | H]; [apply Qle_refl|].
      rewrite Forall_forall in Hall. now apply Hall.
Qed.

Lemma select_maxmin_points_extremes_witness :
  select_maxmin_points [(0, 0); (1, 1); (2, 2)] [[1; 1]; [1; 2]; [2; 0]]%Z 2
    = Ok [(1, 1); (2, 2)] /\
  2%nat = 2%nat.
Proof.
  split; [reflexivity|].
  exact (proj1 (proj2 (proj2 (select_maxmin_points_extremes
           [(0, 0); (1, 1); (2, 2)] [[1; 1]; [1; 2]; [2; 0]]%Z 2))
           [(1, 1); (2, 2)] eq_refl)).
Defined.

Lemma separated_snoc (min_dist : Q) (centers : list point) (x : point) :
  separated min_dist centers ->
  existsb (fun c => dist_lt x c min_dist) centers = false ->
  separated min_dist (centers ++ [x]).
Proof.
  intros Hsep Hx i j ci cj Hij Hi Hj.
  assert (Hjlt : (j < List.length (centers ++ [x]))%nat)
    by (apply nth_error_Some; congruence).
  rewrite length_app in Hjlt. simpl in Hjlt.
  rewrite nth_error_app1 in Hi by lia.
  destruct (Nat.eq_dec j (List.length centers)) as [-> | Hne].
  - rewrite nth_error_app2, Nat.sub_diag in Hj by lia.
    simpl in Hj. injection Hj as <-.
    apply not_true_is_false. intros Hd.
    assert (E : existsb (fun c => dist_lt x c min_dist) centers = true).
    { apply existsb_exists. exists ci. split; [|exact Hd].
      eapply nth_error_In; eauto. }
    congruence.
  - rewrite nth_error_app1 in Hj by lia. exact (Hsep i j ci cj Hij Hi Hj).
Qed.

Lemma select_conflicted_loop_spec (ranked : list (Q * point))
    (num_slices : nat) (min_dist : Q) :
  forall fuel centers i,
    (num_slices - List.length centers + (List.length ranked - i) < fuel)%nat ->
    (i <= List.length ranked)%nat ->
    (List.length centers <= num_slices)%nat ->
    separated min_dist centers ->
    Forall (fun c => In c (map snd ranked)) centers ->
    select_conflicted_loop fuel ranked num_slices min_dist centers i
      = Raise IndexError \/
    exists centers',
      select_conflicted_loop fuel ranked num_slices min_dist centers i
        = Ok centers' /\
      List.length centers' = num_slices /\
      separated min_dist centers' /\
      Forall (fun c => In c (map snd ranked)) centers'.
Proof.
  induction fuel as [|fuel IH]; intros centers i Hfuel Hi Hlen Hsep Hin;
    [lia|].
  simpl. destruct (Nat.ltb_spec (List.length centers) num_slices) as [Hlt | Hge].
  - unfold row. destruct (nth_error ranked i) as [[score x]|] eqn:Hr;
      [|now left].
    assert (Hilt : (i < List.length ranked)%nat)
      by (apply nth_error_Some; congruence).
    simpl.
    destruct (existsb (fun c => dist_lt x c min_dist) centers) eqn:Hnear.
    + apply IH; auto; lia.
    + apply IH; auto.
      * rewrite length_app. simpl. lia.
      * rewrite length_app. simpl. lia.
      * now apply separated_snoc.
      * apply Forall_app. split; [exact Hin|]. constructor; [|constructor].
        apply in_map_iff. exists (score, x). split; [reflexivity|].
        eapply nth_error_In; eauto.
  - right. exists centers. repeat split; auto. lia.
Qed.

(** The loop of [select_conflicted_points] always ends: the function
    returns or raises [IndexError] (the ranking is exhausted, or [L] lacks
    rows).  When it returns, it returns [num_slices] points of [X], none
    of them within [min_dist] of a center chosen before it. *)
Theorem select_conflicted_points_separated (X : list point)
    (L : list (list Z)) (num_slices : nat) (min_dist : Q) :
  select_conflicted_points X L num_slices min_dist = Raise IndexError \/
  exists centers,
    select_conflicted_points X L num_slices min_dist = Ok centers /\
    List.length centers = num_slices /\
    Forall (fun c => In c X) centers /\
    separated min_dist centers.
Proof.
  unfold select_conflicted_points.
  destruct (Nat.le_gt_cases (List.length X) (List.length L)) as [Hrows | Hrows].
  - destruct (proj1 (rank_by_conflict_outcome X L) Hrows) as [ranked Hr].
    rewrite Hr. simpl bind.
    destruct (@select_conflicted_loop_spec ranked num_slices min_dist
                (num_slices + List.length ranked + 1) [] 0)
      as [Herr | (centers & Hc & Hlen & Hsep & Hin)];
      try (simpl; lia).
    + intros i j ci cj _ Hi. destruct i; discriminate Hi.
    + constructor.
    + now left.
    + right. exists centers. repeat split; auto.
      eapply Forall_impl; [|exact Hin]. intros c Hcin.
      apply in_map_iff in Hcin. destruct Hcin as (e & <- & He).
      eapply ranked_points_in_X; eauto.
  - left. now rewrite (proj1 (proj2 (rank_by_conflict_outcome X L)) Hrows).
Qed.

(** ** More on the slice assigner *)

(** The first turn of [create_slices] raises at once, before any ellipse is
    drawn, when the slice source is none of the four known names
    ([Exception] carrying the name), when the source is ["lfs"] and no LF
    regions are given ([AssertionError]), and when the source is
    ["maxmin"] with a slice count other than 2 ([AssertionError]). *)
Theorem create_slices_rejects_bad_source (fuel : nat) (X : list point)
    (Y : list Z) (L : list (list Z)) (slice_source : string)
    (lf_regions : option (list Region)) (num_slices : nat)
    (min_slice_size : Z) (min_a max_a : Q) (w : world) :
  (slice_source <> "random"%string -> slice_source <> "lfs"%string ->
   slice_source <> "conflicts"%string -> slice_source <> "maxmin"%string ->
   create_slices (S fuel) X Y L slice_source lf_regions num_slices
     min_slice_size min_a max_a w
   = Raise (Exception ("Unrecognized slice_source: " ++ slice_source))) /\
  create_slices (S fuel) X Y L "lfs" None num_slices min_slice_size
    min_a max_a w = Raise AssertionError /\
  (num_slices <> 2%nat ->
   create_slices (S fuel) X Y L "maxmin" lf_regions num_slices
     min_slice_size min_a max_a w = Raise AssertionError).
Proof.
  unfold create_slices. simpl create_slices_while. unfold bindM at 1.
  split; [|split].
  - intros H1 H2 H3 H4. unfold choose_centers.
    apply String.eqb_neq in H1, H2, H3, H4. now rewrite H1, H2, H3, H4.
  - reflexivity.
  - intros Hn. unfold bindM. unfold choose_centers. simpl.
    unfold select_maxmin_points. apply Nat.eqb_neq in Hn. now rewrite Hn.
Qed.

Lemma create_slices_rejects_bad_source_witness :
  "grid"%string <> "random"%string /\
  create_slices 1 X5 [] [] "grid" None 1 1 1 2 (world_const 0)
  = Raise (Exception "Unrecognized slice_source: grid").
Proof.
  split; [discriminate|].
  apply (proj1 (create_slices_rejects_bad_source 0 X5 [] [] "grid" None
                  1 1 1 2 (world_const 0))); discriminate.
Defined.

Lemma list_sum_count_cons (a : Z) (l d : list Z) :
  list_sum (map (count_occ Z.eq_dec (a :: l)) d)
  = (list_sum (map (count_occ Z.eq_dec l) d) + count_occ Z.eq_dec d a)%nat.
Proof.
  induction d as [|v d IH]; [reflexivity|].
  unfold list_sum in *. cbn [map fold_right]. rewrite IH. simpl. destruct (Z.eq_dec a v), (Z.eq_dec v a); subst;
    try congruence; lia.
Qed.

Lemma list_sum_counts_le (l d : list Z) :
  NoDup d -> (list_sum (map (count_occ Z.eq_dec l) d) <= List.length l)%nat.
Proof.
  intros Hd. induction l as [|a l IH].
  - clear Hd. induction d as [|v d IHd]; [reflexivity | exact IHd].
  - rewrite list_sum_count_cons. simpl.
    pose proof (proj1 (NoDup_count_occ Z.eq_dec d) Hd a). lia.
Qed.

Lemma list_sum_lower (f : Z -> nat) (c : nat) (d : list Z) :
  (forall v, In v d -> c <= f v)%nat ->
  (List.length d * c <= list_sum (map f d))%nat.
Proof.
  induction d as [|v d IH]; intros H; [simpl; lia|].
  assert (c <= f v)%nat by (apply H; now left).
  assert (List.length d * c <= list_sum (map f d))%nat
    by (apply IH; intros; apply H; now right).
  unfold list_sum in *. simpl. lia.
Qed.

(** A [Z] that passes the test has room for its slices:
    [(num_slices + 1) (min_slice_size + 1) <= n].  Hence [create_slices]
    cannot return, whatever the number of turns, when the points are too
    few for the slice count and the minimum size. *)
Theorem create_slices_needs_room (fuel : nat) (X : list point) (Y : list Z)
    (L : list (list Z)) (slice_source : string)
    (lf_regions : option (list Region)) (num_slices : nat)
    (min_slice_size : Z) (min_a max_a : Q) (w w' : world)
    (Zs : list Z) (regions : list Region) :
  (0 <= min_slice_size)%Z ->
  create_slices fuel X Y L slice_source lf_regions num_slices
    min_slice_size min_a max_a w = Ok ((Zs, regions), w') ->
  ((Z.of_nat num_slices + 1) * (min_slice_size + 1)
   <= Z.of_nat (List.length X))%Z.
Proof.
  intros Hms H. unfold create_slices in H.
  apply create_slices_while_accepts in H;
    [|apply ids_upto_zeros | apply repeat_length].
  destruct H as (Hsat & _ & Hlen). apply satisfied_iff in Hsat.
  destruct Hsat as [Hn Hc]. unfold num_distinct in Hn.
  pose proof (@list_sum_counts_le Zs (nodup Z.eq_dec Zs)
                (NoDup_nodup Z.eq_dec Zs)) as Hup.
  pose proof (@list_sum_lower (count_occ Z.eq_dec Zs)
                (Z.to_nat min_slice_size + 1) (nodup Z.eq_dec Zs)) as Hlow.
  assert (Hall : forall v, In v (nodup Z.eq_dec Zs) ->
                   (Z.to_nat min_slice_size + 1
                    <= count_occ Z.eq_dec Zs v)%nat).
  { intros v Hv. apply nodup_In in Hv. specialize (Hc v Hv). lia. }
  specialize (Hlow Hall). rewrite Hn in Hlow. rewrite <- Hlen. nia.
Qed.

Lemma create_slices_needs_room_witness :
  (0 <= 1)%Z /\
  (exists regions w',
     create_slices 5 X5 [] [] "random" None 1 1 1 2
       (world_of [] [0; 0; 0; 1 # 5; 99 # 100; 99 # 100])
     = Ok (([0; 1; 1; 0; 0]%Z, regions), w')) /\
  ((Z.of_nat 1 + 1) * (1 + 1) <= Z.of_nat (List.length X5))%Z.
Proof.
  assert (Hms : (0 <= 1)%Z) by lia.
  assert (Hrun : exists regions w',
    create_slices 5 X5 [] [] "random" None 1 1 1 2
      (world_of [] [0; 0; 0; 1 # 5; 99 # 100; 99 # 100])
    = Ok (([0; 1; 1; 0; 0]%Z, regions), w'))
    by (eexists; eexists; cbv; reflexivity).
  split; [exact Hms|]. split; [exact Hrun|].
  destruct Hrun as (regions & w' & Hrun).
  exact (@create_slices_needs_room _ _ _ _ _ _ _ _ _ _ _ _ _ _ Hms Hrun).
Defined.

(** ** Runs that cannot fail *)

Lemma np_random_sample_runs (w : world) :
  exists u w', np_random_sample w = Ok (u, w') /\ 0 <= u /\ u < 1.
Proof.
  unfold np_random_sample, Rng.next. eexists. eexists.
  split; [reflexivity|]. apply frac_range.
Qed.

Lemma np_uniform_runs (low high : Q) (w : world) :
  low <= high ->
  exists v w', np_uniform low high w = Ok (v, w') /\ low <= v /\ v <= high.
Proof.
  intros Hle. destruct (np_random_sample_runs w) as (u & w' & Hu & _).
  unfold np_uniform, bindM. rewrite Hu. eexists. eexists.
  split; [reflexivity|].
  apply np_uniform_range with (w := w) (w' := w'); [exact Hle|].
  unfold np_uniform, bindM. now rewrite Hu.
Qed.

Lemma np_index_below_runs (n : nat) (w : world) :
  (0 < n)%nat ->
  exists i w', np_index_below n w = Ok (i, w') /\ (i < n)%nat.
Proof.
  intros Hn. destruct (np_random_sample_runs w) as (u & w' & Hu & Hu0 & Hu1).
  unfold np_index_below, bindM. rewrite Hu. eexists. eexists.
  split; [reflexivity|].
  set (N := inject_Z (Z.of_nat n)).
  assert (HN : 0 < N) by (unfold N; rewrite <- (Zlt_Qlt 0); lia).
  assert (Hlt : u * N < N) by nra.
  pose proof (Qfloor_le (u * N)) as Hfl.
  assert (Hz : (Qfloor (u * N) < Z.of_nat n)%Z).
  { rewrite Zlt_Qlt. fold N. lra. }
  lia.
Qed.

Lemma assign_y_runs (region : Region) (label : Z) :
  (forall p, exists ans, contains region p = Ok ans) ->
  forall X Y, (List.length X <= List.length Y)%nat ->
    exists Y', assign_y X Y region label = Ok Y'.
Proof.
  intros Hc. induction X as [|x X IH]; intros Y Hlen; simpl.
  - now exists Y.
  - destruct Y as [|y Y]; [simpl in Hlen; lia|].
    destruct (Hc x) as [ans Hans]. rewrite Hans. simpl.
    destruct (IH Y) as [Y' HY']; [simpl in Hlen; lia|].
    rewrite HY'. simpl. eauto.
Qed.

Lemma ellipse_contains_runs (h k a b : Q) :
  0 < a -> 0 < b ->
  forall p, exists ans, contains (EllipseObj h k a b) p = Ok ans.
Proof.
  intros Ha Hb [x y].
  assert (HA : ~ a ^ 2 == 0).
  { apply Qnot_eq_sym, Qlt_not_eq, square_pos.
    intros E. rewrite E in Ha. exact (Qlt_irrefl _ Ha). }
  assert (HB : ~ b ^ 2 == 0).
  { apply Qnot_eq_sym, Qlt_not_eq, square_pos.
    intros E. rewrite E in Hb. exact (Qlt_irrefl _ Hb). }
  unfold contains. rewrite (div_nonzero _ HA), (div_nonzero _ HB).
  simpl. eauto.
Qed.

Lemma create_labels_loop_runs (X : list point) (min_a max_a : Q) :
  X <> [] -> 0 < min_a -> min_a <= max_a ->
  forall iters Y regions w,
    List.length Y = List.length X ->
    exists Y' regions' w',
      create_labels_loop X min_a max_a iters Y regions w
        = Ok ((Y', regions'), w').
Proof.
  intros HX Hpos Hle.
  assert (Hn : (0 < List.length X)%nat)
    by (destruct X; [contradiction | simpl; lia]).
  induction iters as [|iters IH]; intros Y regions w HlenY; simpl.
  - unfold ret. eauto.
  - unfold np_choice_range. destruct (List.length X) as [|n'] eqn:En; [lia|].
    rewrite <- En in *.
    destruct (np_index_below_runs w Hn) as (i & w1 & Hi & Hlt).
    unfold bindM at 1. rewrite Hi.
    destruct (nth_error X i) as [[x y]|] eqn:Hx;
      [|apply nth_error_None in Hx; lia].
    unfold bindM at 1. unfold row. rewrite Hx. simpl lift.
    destruct (np_uniform_runs w1 Hle) as (a & w2 & Ha & Ha0 & _).
    unfold bindM at 1. rewrite Ha.
    destruct (np_uniform_runs w2 Hle) as (b & w3 & Hb & Hb0 & _).
    unfold bindM at 1. rewrite Hb.
    unfold bindM at 1. simpl lift.
    assert (Hpa : 0 < a) by lra. assert (Hpb : 0 < b) by lra.
    destruct (@assign_y_runs (EllipseObj x y a b) 1%Z
                (ellipse_contains_runs x y Hpa Hpb) X Y) as [Y' HY']; [lia|].
    unfold bindM at 1. rewrite HY'. simpl lift.
    apply IH. apply assign_y_spec in HY'. destruct HY' as [Hl _]. congruence.
Qed.

(** On a nonempty point set and with a semi-axis range [0 < min_a <=
    max_a], [create_labels] always returns: every random center is a row
    of [X], no ellipse has a zero semi-axis, and every point has a label to
    overwrite. *)
Theorem create_labels_returns (X : list point) (k : Z) (num_clusters : nat)
    (min_a max_a : Q) (w : world) :
  X <> [] -> 0 < min_a -> min_a <= max_a ->
  exists Y regions w',
    create_labels X k num_clusters min_a max_a w = Ok ((Y, regions), w').
Proof.
  intros HX Hpos Hle. unfold create_labels.
  apply create_labels_loop_runs; auto. apply repeat_length.
Qed.

Lemma create_labels_returns_witness :
  X5 <> [] /\ 0 < 1 /\ 1 <= 3 /\
  exists Y regions w',
    create_labels X5 2 4 1 3 (world_const (1 # 3)) = Ok ((Y, regions), w').
Proof.
  assert (HX : X5 <> []) by discriminate.
  assert (H01 : 0 < 1) by reflexivity.
  assert (H13 : 1 <= 3) by discriminate.
  split; [exact HX|]. split; [exact H01|]. split; [exact H13|].
  exact (@create_labels_returns X5 2 4 1 3 (world_const (1 # 3)) HX H01 H13).
Defined.

(** ** More on the labeling functions *)

Lemma create_lfs_loop_counts (X : list point) (Y : list Z) (unipolar : bool)
    (min_r max_r min_acc max_acc min_prop max_prop : Q) :
  forall iters st w st' w',
    create_lfs_loop X Y unipolar min_r max_r min_acc max_acc min_prop max_prop
      iters st w = Ok (st', w') ->
    List.length (L_cols st') = (List.length (L_cols st) + iters)%nat /\
    List.length (regions_hist st')
      = (List.length (regions_hist st) + iters)%nat /\
    ((1 <= iters)%nat -> X <> []).
Proof.
  induction iters as [|iters IH]; intros st w st' w' H.
  - simpl in H. run_step. repeat split; lia.
  - cbn [create_lfs_loop] in H.
    apply bindM_Ok in H. destruct H as (i & w0 & Hi & H).
    apply bindM_Ok in H. destruct H as ([x y] & w1 & _ & H).
    apply bindM_Ok in H. destruct H as (r & w2 & _ & H).
    apply bindM_Ok in H. destruct H as (region & w3 & _ & H).
    apply bindM_Ok in H. destruct H as (props & w4 & _ & H).
    apply bindM_Ok in H. destruct H as (accs & w5 & _ & H).
    apply bindM_Ok in H. destruct H as (l & w6 & _ & H).
    apply bindM_Ok in H. destruct H as (l' & w7 & _ & H).
    apply IH in H. simpl in H. rewrite !length_app in H. simpl in H.
    destruct H as (H1 & H2 & _). repeat split; try lia.
    intros _ ->. discriminate Hi.
Qed.

Lemma create_lfs_ok_shape (X : list point) (Y : list Z) (m : nat)
    (unipolar : bool) (min_r max_r min_acc max_acc min_prop max_prop : Q)
    (w w' : world) (L : list (list Z)) (lf_regions : list Region) :
  create_lfs X Y m unipolar min_r max_r min_acc max_acc min_prop max_prop w
    = Ok ((L, lf_regions), w') ->
  (1 <= m)%nat /\ X <> [] /\ List.length Y = List.length X /\
  List.length L = List.length X /\
  Forall (fun L_i => List.length L_i = m) L /\
  List.length lf_regions = m.
Proof.
  intros H. unfold create_lfs in H.
  apply bindM_Ok in H. destruct H as ([L0 st] & w1 & Hlocals & Hret).
  unfold ret in Hret. injection Hret as <- <- <-.
  unfold create_lfs_locals in Hlocals.
  apply bindM_Ok in Hlocals. destruct Hlocals as (st0 & w2 & Hloop & H).
  apply create_lfs_loop_counts in Hloop. simpl in Hloop.
  destruct Hloop as (Hcols & Hregs & HX).
  destruct m as [|m'].
  { apply lift_Ok in H. destruct H as [H _].
    destruct (_ =? _)%nat; discriminate H. }
  apply bindM_Ok in H. destruct H as (u & w3 & Hassert & H).
  unfold ret in H. injection H as <- <- <-.
  apply lift_Ok in Hassert. destruct Hassert as [Hassert _].
  unfold assert in Hassert.
  destruct (Nat.eqb_spec (List.length Y) (List.length X)) as [Hlen|];
    [|discriminate].
  split; [lia|]. split; [apply HX; lia|]. split; [exact Hlen|].
  split; [|split; [|exact Hregs]].
  - unfold transpose. now rewrite length_map, length_seq.
  - apply Forall_forall. intros L_i Hi. unfold transpose in Hi.
    apply in_map_iff in Hi. destruct Hi as (i & <- & _).
    now rewrite length_map.
Qed.

(** [create_lfs] returns only for at least one labeling function, a
    nonempty point set and one label per point; the matrix it returns has
    a row per point and a column per labeling function, and there is one
    region per labeling function.  With [m = 0] it always raises. *)
Theorem create_lfs_shape (X : list point) (Y : list Z) (m : nat)
    (unipolar : bool) (min_r max_r min_acc max_acc min_prop max_prop : Q)
    (w : world) :
  (forall L lf_regions w',
     create_lfs X Y m unipolar min_r max_r min_acc max_acc min_prop max_prop w
       = Ok ((L, lf_regions), w') ->
     (1 <= m)%nat /\ X <> [] /\ List.length Y = List.length X /\
     List.length L = List.length X /\
     Forall (fun L_i => List.length L_i = m) L /\
     List.length lf_regions = m) /\
  (m = 0%nat ->
   create_lfs X Y m unipolar min_r max_r min_acc max_acc min_prop max_prop w
     = Raise AssertionError \/
   create_lfs X Y m unipolar min_r max_r min_acc max_acc min_prop max_prop w
     = Raise IndexError).
Proof.
  split.
  - intros L lf_regions w' H. now apply create_lfs_ok_shape in H.
  - intros ->. unfold create_lfs, create_lfs_locals. simpl.
    unfold bindM, ret, lift. simpl.
    destruct (List.length X =? 0)%nat; auto.
Qed.

Lemma create_lfs_shape_witness :
  exists lf_regions w',
    create_lfs X5 [1; 1; 1; 2; 2]%Z 1 false 1 5 (5 # 10) (9 # 10) (5 # 10) (9 # 10)
      (world_const 0) = Ok (([[1]; [0]; [0]; [0]; [0]]%Z, lf_regions), w') /\
    List.length [[1]; [0]; [0]; [0]; [0]]%Z = List.length X5.
Proof.
  eexists. eexists.
  assert (Hrun :
    create_lfs X5 [1; 1; 1; 2; 2]%Z 1 false 1 5 (5 # 10) (9 # 10) (5 # 10) (9 # 10)
      (world_const 0) = Ok (([[1]; [0]; [0]; [0]; [0]]%Z, _), _))
    by (cbv; reflexivity).
  split; [exact Hrun|].
  destruct (proj1 (create_lfs_shape X5 [1; 1; 1; 2; 2]%Z 1 false 1 5
                     (5 # 10) (9 # 10) (5 # 10) (9 # 10) (world_const 0))
              _ _ _ Hrun) as (_ & _ & _ & Hrows & _).
  exact Hrows.
Defined.

Lemma np_randint_range (low high : Z) (w w' : world) (v : Z) :
  np_randint low high w = Ok (v, w') -> (low <= v < high)%Z.
Proof.
  unfold np_randint. destruct (Z.leb_spec high low) as [Hle | Hlt].
  - intros H. apply lift_Ok in H. destruct H as [H _]. discriminate H.
  - intros H. apply bindM_Ok in H. destruct H as (i & w1 & Hi & H).
    run_step.
    assert (Hn : (0 < Z.to_nat (high - low))%nat) by lia.
    destruct (np_index_below_runs w Hn) as (i' & w1' & Hi' & Hlt').
    rewrite Hi in Hi'. injection Hi' as -> _. lia.
Qed.

Lemma keep_polarity_single (polarity : Z) (l : list Z) :
  Forall (fun v => v = 0%Z \/ v = polarity) (keep_polarity polarity l).
Proof.
  unfold keep_polarity. apply Forall_forall. intros v Hv.
  apply in_map_iff in Hv. destruct Hv as (u & <- & _).
  destruct (Z.eqb_spec u polarity); auto.
Qed.

Lemma create_lfs_loop_unipolar (X : list point) (Y : list Z)
    (min_r max_r min_acc max_acc min_prop max_prop : Q) :
  forall iters st w st' w',
    Forall single_polarity (L_cols st) ->
    create_lfs_loop X Y true min_r max_r min_acc max_acc min_prop max_prop
      iters st w = Ok (st', w') ->
    Forall single_polarity (L_cols st').
Proof.
  induction iters as [|iters IH]; intros st w st' w' Hinv H.
  - simpl in H. now run_step.
  - cbn [create_lfs_loop] in H.
    apply bindM_Ok in H. destruct H as (i & w0 & _ & H).
    apply bindM_Ok in H. destruct H as ([x y] & w1 & _ & H).
    apply bindM_Ok in H. destruct H as (r & w2 & _ & H).
    apply bindM_Ok in H. destruct H as (region & w3 & _ & H).
    apply bindM_Ok in H. destruct H as (props & w4 & _ & H).
    apply bindM_Ok in H. destruct H as (accs & w5 & _ & H).
    apply bindM_Ok in H. destruct H as (l & w6 & _ & H).
    apply bindM_Ok in H. destruct H as (l' & w7 & Hl' & H).
    apply IH in H; [exact H|]. simpl.
    apply Forall_app. split; [exact Hinv|]. constructor; [|constructor].
    apply bindM_Ok in Hl'. destruct Hl' as (polarity & w8 & Hpol & Hl').
    run_step. apply np_randint_range in Hpol.
    exists polarity. split; [lia | apply keep_polarity_single].
Qed.

Lemma nth_nil_zero (i : nat) : nth i (@nil Z) 0%Z = 0%Z.
Proof. destruct i; reflexivity. Qed.

(** In unipolar mode every labeling function votes for one class only:
    each column of the returned matrix has a polarity, 1 or 2, and holds
    nothing but abstentions and that polarity. *)
Theorem create_lfs_unipolar_columns (X : list point) (Y : list Z) (m : nat)
    (min_r max_r min_acc max_acc min_prop max_prop : Q) (w w' : world)
    (L : list (list Z)) (lf_regions : list Region) :
  create_lfs X Y m true min_r max_r min_acc max_acc min_prop max_prop w
    = Ok ((L, lf_regions), w') ->
  forall j, (j < m)%nat ->
    exists polarity, (polarity = 1%Z \/ polarity = 2%Z) /\
      forall L_i, In L_i L ->
        nth j L_i 0%Z = 0%Z \/ nth j L_i 0%Z = polarity.
Proof.
  intros H j Hj. unfold create_lfs in H.
  apply bindM_Ok in H. destruct H as ([L0 st] & w1 & Hlocals & Hret).
  unfold ret in Hret. injection Hret as <- <- <-.
  unfold create_lfs_locals in Hlocals.
  apply bindM_Ok in Hlocals. destruct Hlocals as (st0 & w2 & Hloop & H).
  pose proof Hloop as Hcounts. apply create_lfs_loop_counts in Hcounts.
  destruct Hcounts as (Hcols & _ & _).
  apply create_lfs_loop_unipolar in Hloop; [|constructor].
  simpl in Hcols. destruct m as [|m']; [lia|].
  apply bindM_Ok in H. destruct H as (u & w3 & _ & H).
  unfold ret in H. injection H as <- <- <-.
  destruct (nth_error (L_cols st0) j) as [col|] eqn:Hcol;
    [|apply nth_error_None in Hcol; lia].
  rewrite Forall_forall in Hloop.
  destruct (Hloop col (nth_error_In _ _ Hcol)) as (polarity & Hpol & Hall).
  exists polarity. split; [exact Hpol|].
  intros L_i Hi. unfold transpose in Hi.
  apply in_map_iff in Hi. destruct Hi as (i & <- & _).
  rewrite <- (nth_nil_zero i) at 1 3.
  rewrite (map_nth (fun c => nth i c 0%Z) (L_cols st0) [] j).
  rewrite (nth_error_nth _ _ [] Hcol).
  destruct (nth_in_or_default i col 0%Z) as [Hin | ->]; [|now left].
  rewrite Forall_forall in Hall. auto.
Qed.

Lemma create_lfs_unipolar_columns_witness :
  exists lf_regions w',
    create_lfs X5 [1; 1; 1; 2; 2]%Z 2 true 1 5 (5 # 10) (9 # 10) (5 # 10) (9 # 10)
      (world_of [1 # 10; 1 # 10; 1 # 10; 95 # 100; 1 # 10; 1 # 10]
                [0; 0; 1 # 2; 1 # 2; 1 # 2; 1 # 2; 0;
                 1 # 5; 1 # 4; 1 # 2; 1 # 2; 1 # 2; 1 # 2; 3 # 4])
    = Ok (([[1; 0]; [0; 2]; [0; 0]; [0; 0]; [0; 0]]%Z, lf_regions), w') /\
    exists polarity, (polarity = 1%Z \/ polarity = 2%Z) /\
      forall L_i, In L_i [[1; 0]; [0; 2]; [0; 0]; [0; 0]; [0; 0]]%Z ->
        nth 1 L_i 0%Z = 0%Z \/ nth 1 L_i 0%Z = polarity.
Proof.
  eexists. eexists.
  assert (Hrun :
    create_lfs X5 [1; 1; 1; 2; 2]%Z 2 true 1 5 (5 # 10) (9 # 10) (5 # 10) (9 # 10)
      (world_of [1 # 10; 1 # 10; 1 # 10; 95 # 100; 1 # 10; 1 # 10]
                [0; 0; 1 # 2; 1 # 2; 1 # 2; 1 # 2; 0;
                 1 # 5; 1 # 4; 1 # 2; 1 # 2; 1 # 2; 1 # 2; 3 # 4])
    = Ok (([[1; 0]; [0; 2]; [0; 0]; [0; 0]; [0; 0]]%Z, _), _))
    by (cbv; reflexivity).
  split; [exact Hrun|].
  apply (@create_lfs_unipolar_columns _ _ _ _ _ _ _ _ _ _ _ _ _ Hrun 1%nat).
  lia.
Defined.

Lemma random_random_runs (w : world) :
  exists u w', random_random w = Ok (u, w').
Proof. unfold random_random, Rng.next. eauto. Qed.

Lemma vote_runs (y : Z) (props accs : list Q) (w : world) :
  List.length props = 2%nat -> List.length accs = 2%nat ->
  y = 1%Z \/ y = 2%Z ->
  exists v w', vote y props accs w = Ok (v, w').
Proof.
  intros Hp Ha Hy.
  destruct props as [|p1 [|p2 [|]]]; try discriminate.
  destruct accs as [|a1 [|a2 [|]]]; try discriminate.
  unfold vote, bindM, random_random, Rng.next, lift, ret.
  destruct Hy as [-> | ->]; simpl;
    repeat match goal with
           | |- context [if ?c then _ else _] => destruct c
           end; simpl; eauto.
Qed.

Lemma assign_l_runs (region : Region) (props accs : list Q) :
  (forall p, exists ans, contains region p = Ok ans) ->
  List.length props = 2%nat -> List.length accs = 2%nat ->
  forall X Y w,
    Forall (fun y => y = 1%Z \/ y = 2%Z) Y ->
    exists l w', assign_l X Y region props accs w = Ok (l, w').
Proof.
  intros Hc Hp Ha. induction X as [|x X IH]; intros Y w HY.
  - destruct Y; simpl; unfold ret; eauto.
  - destruct Y as [|y Y]; simpl; [unfold ret; eauto|].
    inversion HY as [|? ? Hy HY']; subst.
    destruct (Hc x) as [ans Hans]. unfold bindM at 1. rewrite Hans. simpl lift.
    assert (Hv : exists v w1,
               (if ans then vote y props accs else ret 0%Z) w = Ok (v, w1)).
    { destruct ans; [now apply vote_runs | unfold ret; eauto]. }
    destruct Hv as (v & w1 & Hv). unfold bindM at 1. rewrite Hv.
    destruct (IH Y w1 HY') as (l & w2 & Hl). unfold bindM at 1. rewrite Hl.
    unfold ret. eauto.
Qed.

Lemma np_randint_runs (low high : Z) (w : world) :
  (low < high)%Z -> exists v w', np_randint low high w = Ok (v, w').
Proof.
  intros Hlt. unfold np_randint.
  destruct (Z.leb_spec high low) as [Hle | _]; [lia|].
  assert (Hn : (0 < Z.to_nat (high - low))%nat) by lia.
  destruct (np_index_below_runs w Hn) as (i & w' & Hi & _).
  unfold bindM. rewrite Hi. unfold ret. eauto.
Qed.

Lemma create_lfs_loop_runs (X : list point) (Y : list Z) (unipolar : bool)
    (min_r max_r min_acc max_acc min_prop max_prop : Q) :
  X <> [] -> 0 < min_r -> min_r <= max_r ->
  Forall (fun y => y = 1%Z \/ y = 2%Z) Y ->
  forall iters st w,
    exists st' w',
      create_lfs_loop X Y unipolar min_r max_r min_acc max_acc
        min_prop max_prop iters st w = Ok (st', w').
Proof.
  intros HX Hpos Hle HY.
  assert (Hn : (0 < List.length X)%nat)
    by (destruct X; [contradiction | simpl; lia]).
  induction iters as [|iters IH]; intros st w; cbn [create_lfs_loop].
  - unfold ret. eauto.
  - unfold np_choice_range. destruct (List.length X) as [|n'] eqn:En; [lia|].
    rewrite <- En in *.
    destruct (np_index_below_runs w Hn) as (i & w1 & Hi & Hlt).
    unfold bindM at 1. rewrite Hi.
    destruct (nth_error X i) as [[x y]|] eqn:Hx;
      [|apply nth_error_None in Hx; lia].
    unfold bindM at 1. unfold row. rewrite Hx. simpl lift.
    destruct (np_uniform_runs w1 Hle) as (r & w2 & Hr & Hr0 & _).
    unfold bindM at 1. rewrite Hr.
    unfold bindM at 1. simpl lift.
    destruct (np_uniform_n_runs min_acc max_acc 2 w2)
      as (props & w3 & Hprops & Hlp & _).
    unfold bindM at 1. rewrite Hprops.
    destruct (np_uniform_n_runs min_acc max_acc 2 w3)
      as (accs & w4 & Haccs & Hla & _).
    unfold bindM at 1. rewrite Haccs.
    assert (Hpr : 0 < r) by lra.
    destruct (@assign_l_runs (EllipseObj x y r r) props accs
                (ellipse_contains_runs x y Hpr Hpr) Hlp Hla X Y w4 HY)
      as (l & w5 & Hl).
    unfold bindM at 1. rewrite Hl.
    assert (Hl' : exists l' w6,
               (if unipolar
                then polarity <~ np_randint 1 (2 + 1) ;;
                     ret (keep_polarity polarity l)
                else ret l) w5 = Ok (l', w6)).
    { destruct unipolar; [|unfold ret; eauto].
      assert (H13 : (1 < 2 + 1)%Z) by lia.
      destruct (np_randint_runs w5 H13) as (p & w6 & Hp).
      unfold bindM. rewrite Hp. unfold ret. eauto. }
    destruct Hl' as (l' & w6 & Hl'). unfold bindM at 1. rewrite Hl'.
    apply IH.
Qed.

(** On binary labels [create_lfs] always returns: given at least one
    labeling function, a nonempty point set with one label 1 or 2 per
    point, and a radius range [0 < min_r <= max_r], no index, division or
    [flip] can fail. *)
Theorem create_lfs_returns (X : list point) (Y : list Z) (m : nat)
    (unipolar : bool) (min_r max_r min_acc max_acc min_prop max_prop : Q)
    (w : world) :
  (1 <= m)%nat -> X <> [] -> List.length Y = List.length X ->
  Forall (fun y => y = 1%Z \/ y = 2%Z) Y ->
  0 < min_r -> min_r <= max_r ->
  exists L lf_regions w',
    create_lfs X Y m unipolar min_r max_r min_acc max_acc min_prop max_prop w
      = Ok ((L, lf_regions), w').
Proof.
  intros Hm HX Hlen HY Hpos Hle. unfold create_lfs, create_lfs_locals.
  destruct (@create_lfs_loop_runs X Y unipolar min_r max_r min_acc max_acc
              min_prop max_prop HX Hpos Hle HY m (mkLfs [] [] [] []) w)
    as (st & w1 & Hloop).
  unfold bindM. rewrite Hloop.
  destruct m as [|m']; [lia|].
  unfold lift, assert, ret.
  rewrite (proj2 (Nat.eqb_eq _ _) Hlen). eauto.
Qed.

Lemma create_lfs_returns_witness :
  (1 <= 3)%nat /\ X5 <> [] /\
  List.length [1; 1; 1; 2; 2]%Z = List.length X5 /\
  Forall (fun y => y = 1%Z \/ y = 2%Z) [1; 1; 1; 2; 2]%Z /\
  0 < 1 /\ 1 <= 5 /\
  exists L lf_regions w',
    create_lfs X5 [1; 1; 1; 2; 2]%Z 3 true 1 5 (5 # 10) (9 # 10) (5 # 10) (9 # 10)
      (world_const (1 # 3)) = Ok ((L, lf_regions), w').
Proof.
  assert (Hm : (1 <= 3)%nat) by lia.
  assert (HX : X5 <> []) by discriminate.
  assert (Hlen : List.length [1; 1; 1; 2; 2]%Z = List.length X5) by reflexivity.
  assert (HY : Forall (fun y => y = 1%Z \/ y = 2%Z) [1; 1; 1; 2; 2]%Z)
    by (repeat constructor; auto).
  assert (H01 : 0 < 1) by reflexivity.
  assert (H15 : 1 <= 5) by discriminate.
  repeat (split; [assumption|]).
  exact (@create_lfs_returns X5 [1; 1; 1; 2; 2]%Z 3 true 1 5 (5 # 10) (9 # 10)
           (5 # 10) (9 # 10) (world_const (1 # 3)) Hm HX Hlen HY H01 H15).
Defined.

(** ** Slices and the labeling functions that target them *)

Lemma same_center_bool (c' c : point) :
  Qeq_bool (fst c') (fst c) && Qeq_bool (snd c') (snd c) = true
  <-> same_center c' c.
Proof.
  unfold same_center. rewrite andb_true_iff, !Qeq_bool_iff. tauto.
Qed.

(** The lookup [[...].index(True)] returns the first LF region whose
    center equals the slice center, and raises [ValueError] exactly when
    no LF region has that center. *)
Theorem index_of_center_first_match (c : point) (lf_regions : list Region) :
  (forall i, index_of_center c lf_regions = Ok i ->
     exists lf_region,
       nth_error lf_regions i = Some lf_region /\
       same_center (center lf_region) c /\
       forall j other, (j < i)%nat -> nth_error lf_regions j = Some other ->
         ~ same_center (center other) c) /\
  (index_of_center c lf_regions = Raise ValueError <->
   forall lf_region, In lf_region lf_regions ->
     ~ same_center (center lf_region) c).
Proof.
  induction lf_regions as [|r lf IH]; simpl.
  - split; [discriminate|]. split; [intros _ ? [] | reflexivity].
  - destruct IH as [IHok IHerr].
    destruct (Qeq_bool (fst (center r)) (fst c)
              && Qeq_bool (snd (center r)) (snd c)) eqn:Hm.
    + apply same_center_bool in Hm. split.
      * intros i H. injection H as <-. exists r.
        split; [reflexivity|]. split; [exact Hm|]. intros j other Hj. lia.
      * split; [discriminate|]. intros H. exfalso. apply (H r); auto.
    + assert (Hr : ~ same_center (center r) c).
      { intros H. apply same_center_bool in H. congruence. }
      split.
      * intros i H. apply bind_Ok in H. destruct H as (i' & Hi' & H).
        injection H as <-. destruct (IHok i' Hi') as (reg & Hn & Hs & Hfirst).
        exists reg. split; [exact Hn|]. split; [exact Hs|].
        intros [|j] other Hj Ho; simpl in Ho.
        -- now injection Ho as <-.
        -- apply (Hfirst j other); [lia | exact Ho].
      * split.
        -- intros H reg [<- | Hin]; [exact Hr|].
           apply (proj1 IHerr); [|exact Hin].
           destruct (index_of_center c lf) as [i | e |]; simpl in H;
             [discriminate | exact H | discriminate].
        -- intros H.
           rewrite (proj2 IHerr); [reflexivity|]. intros reg Hin. apply H. auto.
Qed.

Lemma index_of_center_first_match_witness :
  index_of_center (10, 0) [EllipseObj 0 0 1 1; EllipseObj 10 0 2 2;
                           EllipseObj 10 0 3 3] = Ok 1%nat /\
  exists lf_region,
    nth_error [EllipseObj 0 0 1 1; EllipseObj 10 0 2 2; EllipseObj 10 0 3 3] 1
      = Some lf_region /\
    same_center (center lf_region) (10, 0).
Proof.
  split; [reflexivity|].
  destruct (proj1 (index_of_center_first_match (10, 0)
              [EllipseObj 0 0 1 1; EllipseObj 10 0 2 2; EllipseObj 10 0 3 3])
              1%nat eq_refl) as (reg & Hn & Hs & _).
  exists reg. split; assumption.
Defined.

Lemma index_of_center_found (c : point) (lf_regions : list Region) :
  (exists lf_region, In lf_region lf_regions /\ center lf_region = c) ->
  exists i, index_of_center c lf_regions = Ok i /\
            (i < List.length lf_regions)%nat.
Proof.
  induction lf_regions as [|r lf IH]; intros (reg & Hin & Hc); [destruct Hin|].
  simpl.
  destruct (Qeq_bool (fst (center r)) (fst c)
            && Qeq_bool (snd (center r)) (snd c)) eqn:Hm.
  - exists 0%nat. split; [reflexivity | lia].
  - destruct Hin as [-> | Hin].
    + exfalso. rewrite Hc in Hm.
      assert (E : Qeq_bool (fst c) (fst c) && Qeq_bool (snd c) (snd c) = true).
      { apply same_center_bool. split; reflexivity. }
      congruence.
    + destruct IH as (i & Hi & Hlt); [eauto|].
      rewrite Hi. simpl. exists (S i). split; [reflexivity | lia].
Qed.

Lemma remove_at_incl {A : Type} (i : nat) (l : list A) :
  incl (remove_at i l) l.
Proof.
  revert i. induction l as [|a l IH]; intros [|i] x Hx; simpl in Hx.
  - destruct Hx.
  - destruct Hx.
  - now right.
  - destruct Hx as [<- | Hx]; [now left | right; eapply IH; eauto].
Qed.

Lemma np_choice_noreplace_members {A : Type} (size : nat) :
  forall (a : list A) w chosen w',
    np_choice_noreplace a size w = Ok (chosen, w') ->
    Forall (fun x => In x a) chosen.
Proof.
  induction size as [|size IH]; intros a w chosen w' H; simpl in H.
  - run_step. constructor.
  - apply bindM_Ok in H. destruct H as (i & w1 & _ & H).
    apply bindM_Ok in H. destruct H as (x & w2 & Hx & H).
    apply bindM_Ok in H. destruct H as (rest & w3 & Hrest & H).
    unfold ret in H. injection H as <- <-.
    apply lift_Ok in Hx. destruct Hx as [Hx _].
    destruct (nth_error a i) as [x'|] eqn:Hn; [|discriminate].
    injection Hx as ->. constructor; [eapply nth_error_In; eauto|].
    apply IH in Hrest. eapply Forall_impl; [|exact Hrest].
    intros y Hy. exact (@remove_at_incl _ i a y Hy).
Qed.

Lemma create_slices_for_centered (lf_regions : list Region)
    (X centers : list point) (min_a max_a : Q) :
  (forall c, In c centers ->
     exists lf_region, In lf_region lf_regions /\ center lf_region = c) ->
  forall iters i Zs regions w Zs' regions' w',
    Forall (centered_on lf_regions) regions ->
    create_slices_for X centers min_a max_a iters i Zs regions w
      = Ok ((Zs', regions'), w') ->
    Forall (centered_on lf_regions) regions'.
Proof.
  intros Hc. induction iters as [|iters IH];
    intros i Zs regions w Zs' regions' w' Hinv H; simpl in H.
  - now run_step.
  - apply bindM_Ok in H. destruct H as ([x y] & w1 & Hrow & H).
    apply bindM_Ok in H. destruct H as (a & w2 & _ & H).
    apply bindM_Ok in H. destruct H as (b & w3 & _ & H).
    apply bindM_Ok in H. destruct H as (region & w4 & Hreg & H).
    apply bindM_Ok in H. destruct H as (Zs1 & w5 & _ & H).
    apply IH in H; [exact H|].
    apply Forall_app. split; [exact Hinv|]. constructor; [|constructor].
    apply lift_Ok in Hreg. destruct Hreg as [Hreg _]. injection Hreg as <-.
    apply lift_Ok in Hrow. destruct Hrow as [Hrow _]. unfold row in Hrow.
    destruct (nth_error centers i) as [c|] eqn:Hn; [|discriminate].
    injection Hrow as ->. apply Hc. eapply nth_error_In; eauto.
Qed.

Lemma create_slices_while_centered (lf_regions : list Region)
    (X : list point) (L : list (list Z)) (num_slices : nat)
    (min_slice_size : Z) (min_a max_a : Q) :
  forall fuel Zs regions w Zs' regions' w',
    Forall (centered_on lf_regions) regions ->
    create_slices_while fuel X L "lfs" (Some lf_regions) num_slices
      min_slice_size min_a max_a Zs regions w = Ok ((Zs', regions'), w') ->
    Forall (centered_on lf_regions) regions'.
Proof.
  induction fuel as [|fuel IH]; intros Zs regions w Zs' regions' w' Hinv H;
    simpl in H; [discriminate|].
  apply bindM_Ok in H. destruct H as (centers & w1 & Hcenters & H).
  apply bindM_Ok in H. destruct H as ([Zs1 regions1] & w2 & Hfor & H).
  assert (Hinv1 : Forall (centered_on lf_regions) regions1).
  { eapply create_slices_for_centered; [|exact Hinv | exact Hfor].
    unfold choose_centers in Hcenters. simpl in Hcenters.
    apply bindM_Ok in Hcenters. destruct Hcenters as (chosen & w3 & Hch & Hr).
    unfold ret in Hr. injection Hr as <- _.
    apply np_choice_noreplace_members in Hch. rewrite Forall_forall in Hch.
    intros c Hin. apply in_map_iff in Hin. destruct Hin as (reg & <- & Hreg).
    eauto. }
  destruct (satisfied Zs1 num_slices min_slice_size).
  - unfold ret in H. now injection H as <- <- <-.
  - eapply IH; eauto.
Qed.

(** With slices taken from the LF regions, the final lookup of
    [generate_dataset] cannot fail: every region returned by
    [create_slices] has the center of some LF region, so
    [targeting_regions] returns one valid LF index per returned region. *)
Theorem lfs_slices_find_their_lfs (fuel : nat) (X : list point) (Y : list Z)
    (L : list (list Z)) (lf_regions : list Region) (num_slices : nat)
    (min_slice_size : Z) (min_a max_a : Q) (w w' : world)
    (Zs : list Z) (regions : list Region) :
  create_slices fuel X Y L "lfs" (Some lf_regions) num_slices
    min_slice_size min_a max_a w = Ok ((Zs, regions), w') ->
  exists idxs,
    targeting_regions regions lf_regions = Ok idxs /\
    List.length idxs = List.length regions /\
    Forall (fun i => (i < List.length lf_regions)%nat) idxs.
Proof.
  intros H. unfold create_slices in H.
  apply create_slices_while_centered in H; [|constructor].
  induction H as [|r regions Hr _ IH]; simpl.
  - exists []. repeat split. constructor.
  - destruct Hr as (reg & Hin & Hc).
    destruct (@index_of_center_found (center r) lf_regions) as (i & Hi & Hlt);
      [eauto|].
    destruct IH as (idxs & Hidxs & Hlen & Hall).
    rewrite Hi, Hidxs. simpl. exists (i :: idxs).
    repeat split; [simpl; lia | now constructor].
Qed.

Lemma lfs_slices_find_their_lfs_witness :
  exists regions w',
    create_slices 3 X5 [] [] "lfs"
      (Some [EllipseObj 0 0 1 1; EllipseObj 10 0 2 2]) 1 1 1 2
      (world_of [] [1 # 2; 99 # 100; 99 # 100])
    = Ok (([0; 1; 1; 0; 0]%Z, regions), w') /\
    exists idxs,
      targeting_regions regions [EllipseObj 0 0 1 1; EllipseObj 10 0 2 2]
        = Ok idxs.
Proof.
  eexists. eexists.
  assert (Hrun :
    create_slices 3 X5 [] [] "lfs"
      (Some [EllipseObj 0 0 1 1; EllipseObj 10 0 2 2]) 1 1 1 2
      (world_of [] [1 # 2; 99 # 100; 99 # 100])
    = Ok (([0; 1; 1; 0; 0]%Z, _), _)) by (cbv; reflexivity).
  split; [exact Hrun|].
  destruct (@lfs_slices_find_their_lfs _ _ _ _ _ _ _ _ _ _ _ _ _ Hrun)
    as (idxs & Hidxs & _).
  exists idxs. exact Hidxs.
Defined.

(** ** Plotting *)

Lemma index_outcome {A : Type} (l : list A) (i : Z) :
  ((- Z.of_nat (List.length l) <= i < Z.of_nat (List.length l))%Z ->
   exists a, index l i = Ok a) /\
  (~ (- Z.of_nat (List.length l) <= i < Z.of_nat (List.length l))%Z ->
   index l i = Raise IndexError).
Proof.
  unfold index. split.
  - intros Hi.
    destruct (Z.ltb_spec i 0);
      (destruct ((_ <? 0) || _)%Z eqn:Hout;
       [apply orb_true_iff in Hout; lia|]);
      match goal with
      | |- context [nth_error l ?j] =>
          destruct (nth_error l j) eqn:Hn;
          [eauto | apply nth_error_None in Hn; lia]
      end.
  - intros Hi.
    destruct (Z.ltb_spec i 0);
      (destruct ((_ <? 0) || _)%Z eqn:Hout;
       [reflexivity | apply orb_false_iff in Hout; lia]).
Qed.

(** [color_map] has seven colours: it returns one colour per label when
    every label lies in [-7, 7) (negative labels count from the end of the
    palette), and raises [IndexError] as soon as a label is 7 or more, or
    below -7. *)
Theorem color_map_palette (Y : list Z) :
  (Forall (fun y => -7 <= y < 7)%Z Y ->
   exists cs, color_map Y = Ok cs /\ List.length cs = List.length Y) /\
  (~ Forall (fun y => -7 <= y < 7)%Z Y -> color_map Y = Raise IndexError).
Proof.
  induction Y as [|y Y [IHok IHerr]]; simpl.
  - split; [intros _; now exists [] | intros H; exfalso; apply H; constructor].
  - set (colors := ["k"; "r"; "b"; "g"; "y"; "c"; "m"]%string).
    destruct (index_outcome colors y) as [Hin Hout]. simpl in Hin, Hout.
    split.
    + intros H. inversion H as [|? ? Hy HY]; subst.
      destruct (Hin Hy) as [c Hc]. rewrite Hc. simpl.
      destruct (IHok HY) as (cs & Hcs & Hlen). rewrite Hcs. simpl.
      exists (c :: cs). split; [reflexivity | simpl; lia].
    + intros H.
      destruct (Z_le_dec (-7) y) as [Hlo|Hlo];
        [destruct (Z_lt_dec y 7) as [Hhi|Hhi]|];
        try (rewrite Hout by lia; reflexivity).
      destruct (Hin (conj Hlo Hhi)) as [c Hc]. rewrite Hc. simpl.
      rewrite IHerr; [reflexivity|].
      intros HY. apply H. constructor; [lia | exact HY].
Qed.

Lemma color_map_palette_witness :
  Forall (fun y => -7 <= y < 7)%Z [0; 1; 2; -1]%Z /\
  exists cs, color_map [0; 1; 2; -1]%Z = Ok cs /\
             List.length cs = List.length [0; 1; 2; -1]%Z.
Proof.
  assert (H : Forall (fun y => -7 <= y < 7)%Z [0; 1; 2; -1]%Z)
    by (repeat constructor; lia).
  split; [exact H|].
  exact (proj1 (color_map_palette [0; 1; 2; -1]%Z) H).
Defined.

(** ** Overwriting labels *)

Lemma assign_y_idempotent (region : Region) (label : Z) :
  forall X Y Y1,
    assign_y X Y region label = Ok Y1 -> assign_y X Y1 region label = Ok Y1.
Proof.
  induction X as [|x X IH]; intros Y Y1 H; [reflexivity|].
  destruct Y as [|y Y]; simpl in H.
  - apply bind_Ok in H. destruct H as (b & Hb & H).
    destruct b; [discriminate|].
    assert (HY1 : Y1 = []).
    { apply assign_y_spec in H. destruct H as [Hlen _].
      destruct Y1; [reflexivity | discriminate]. }
    subst Y1. simpl. rewrite Hb. simpl. exact H.
  - apply bind_Ok in H. destruct H as (b & Hb & H).
    apply bind_Ok in H. destruct H as (rest & Hrest & H).
    injection H as <-. simpl. rewrite Hb. simpl.
    rewrite (IH _ _ Hrest). simpl. now destruct b.
Qed.

(** Later assignments overwrite earlier ones: after assigning [label1] in
    [region1] and then [label2] in [region2], a point holds [label2] if
    [region2] contains it, else [label1] if [region1] contains it, else
    the label it had.  Assigning the same label in the same region a
    second time changes nothing. *)
Theorem assign_y_last_write_wins (X : list point) (Y Y1 Y2 : list Z)
    (region1 region2 : Region) (label1 label2 : Z) :
  assign_y X Y region1 label1 = Ok Y1 ->
  assign_y X Y1 region2 label2 = Ok Y2 ->
  List.length Y2 = List.length Y /\
  (forall i p y, nth_error X i = Some p -> nth_error Y i = Some y ->
     nth_error Y2 i
     = Some (if inside region2 p then label2
             else if inside region1 p then label1 else y)) /\
  assign_y X Y1 region1 label1 = Ok Y1.
Proof.
  intros H1 H2. split; [|split].
  - apply assign_y_spec in H1, H2. destruct H1 as [L1 _], H2 as [L2 _].
    congruence.
  - intros i p y Hp Hy.
    destruct (proj2 (assign_y_spec _ _ _ _ H1) i p y Hp Hy) as (b1 & Hb1 & Hi1).
    destruct (proj2 (assign_y_spec _ _ _ _ H2) i p _ Hp Hi1) as (b2 & Hb2 & Hi2).
    rewrite Hi2. unfold inside. rewrite Hb1, Hb2.
    now destruct b1, b2.
  - eapply assign_y_idempotent; eauto.
Qed.

Lemma assign_y_last_write_wins_witness :
  assign_y X5 [2; 2; 2; 2; 2]%Z (EllipseObj 10 0 2 2) 1 = Ok [2; 1; 1; 2; 2]%Z /\
  assign_y X5 [2; 1; 1; 2; 2]%Z (EllipseObj 11 0 1 1) 3 = Ok [2; 1; 3; 2; 2]%Z /\
  List.length [2; 1; 3; 2; 2]%Z = List.length [2; 2; 2; 2; 2]%Z.
Proof.
  split; [reflexivity|]. split; [reflexivity|].
  exact (proj1 (@assign_y_last_write_wins X5 [2; 2; 2; 2; 2]%Z
                  [2; 1; 1; 2; 2]%Z [2; 1; 3; 2; 2]%Z
                  (EllipseObj 10 0 2 2) (EllipseObj 11 0 1 1) 1%Z 3%Z
                  eq_refl eq_refl)).
Defined.

(** ** The vote rule *)

Lemma vote_rule (y : Z) (props accs : list Q) (w w' : world) (v : Z) :
  List.length props = 2%nat ->
  vote y props accs w = Ok (v, w') ->
  (-1 <= y <= 2)%Z /\ (v = 0%Z \/ v = y \/ flip y = Ok v).
Proof.
  intros Hlen H. unfold vote in H.
  apply bindM_Ok in H. destruct H as (u & w1 & _ & H).
  apply bindM_Ok in H. destruct H as (prop & w2 & Hprop & H).
  apply lift_Ok in Hprop. destruct Hprop as [Hprop _].
  apply index_Ok_range in Hprop. rewrite Hlen in Hprop.
  split; [lia|].
  destruct (Qltb u prop).
  - apply bindM_Ok in H. destruct H as (u' & w3 & _ & H).
    apply bindM_Ok in H. destruct H as (acc & w4 & _ & H).
    destruct (Qltb u' acc).
    + unfold ret in H. injection H as <- _. auto.
    + apply lift_Ok in H. destruct H as [H _]. auto.
  - unfold ret in H. injection H as <- _. auto.
Qed.

(** When [assign_l] returns, the vote of every point is 0 (abstain), the
    point's label, or the flip of that label; a point outside the region
    abstains; and every labelled point inside the region has a label in
    [-1, 2] (the per-class vectors have two entries, indexed by
    [y - 1]): a label of 3 or more inside the region makes the call raise
    instead. *)
Theorem assign_l_vote_rule (X : list point) (Y : list Z) (region : Region)
    (props accs : list Q) (w w' : world) (l : list Z) :
  List.length props = 2%nat ->
  assign_l X Y region props accs w = Ok (l, w') ->
  List.length l = List.length Y /\
  forall i p y, nth_error X i = Some p -> nth_error Y i = Some y ->
    exists v, nth_error l i = Some v /\
      (v = 0%Z \/ v = y \/ flip y = Ok v) /\
      (contains region p <> Ok true -> v = 0%Z) /\
      (contains region p = Ok true -> (-1 <= y <= 2)%Z).
Proof.
  intros Hlen. revert Y w w' l.
  induction X as [|x X IH]; intros Y w w' l H.
  - destruct Y as [|y Y]; simpl in H; unfold ret in H; injection H as <- _.
    + split; [reflexivity|]. intros [|i] p y Hp; discriminate Hp.
    + split; [simpl; now rewrite length_map|].
      intros [|i] p y0 Hp; discriminate Hp.
  - destruct Y as [|y Y]; simpl in H.
    + unfold ret in H. injection H as <- _. split; [reflexivity|].
      intros i p y0 _ Hy. destruct i; discriminate Hy.
    + apply bindM_Ok in H. destruct H as (b & w1 & Hb & H).
      apply lift_Ok in Hb. destruct Hb as [Hb ->].
      apply bindM_Ok in H. destruct H as (v & w2 & Hv & H).
      apply bindM_Ok in H. destruct H as (rest & w3 & Hrest & H).
      unfold ret in H. injection H as <- _.
      apply IH in Hrest. destruct Hrest as [Hl Hnth].
      split; [simpl; now rewrite Hl|].
      intros [|i] p y0 Hp Hy; simpl in Hp, Hy; [|now apply Hnth].
      injection Hp as <-. injection Hy as <-.
      exists v. split; [reflexivity|]. destruct b.
      * destruct (@vote_rule _ _ _ _ _ _ Hlen Hv) as [Hy Hr].
        split; [exact Hr|]. split; [congruence | intros _; exact Hy].
      * unfold ret in Hv. injection Hv as <- _.
        split; [auto|]. split; [reflexivity | congruence].
Qed.

Lemma assign_l_vote_rule_witness :
  exists w',
    assign_l X5 [1; 1; 2; 1; 2]%Z (EllipseObj 10 0 2 2) [7 # 10; 7 # 10]
      [7 # 10; 7 # 10] (world_of [1 # 10; 95 # 100; 1 # 10; 1 # 10] [])
    = Ok ([0; 2; 2; 0; 0]%Z, w') /\
    List.length [0; 2; 2; 0; 0]%Z = List.length [1; 1; 2; 1; 2]%Z.
Proof.
  eexists.
  assert (Hrun :
    assign_l X5 [1; 1; 2; 1; 2]%Z (EllipseObj 10 0 2 2) [7 # 10; 7 # 10]
      [7 # 10; 7 # 10] (world_of [1 # 10; 95 # 100; 1 # 10; 1 # 10] [])
    = Ok ([0; 2; 2; 0; 0]%Z, _)) by (cbv; reflexivity).
  split; [exact Hrun|].
  exact (proj1 (@assign_l_vote_rule _ _ _ [7 # 10; 7 # 10] _ _ _ _
                  eq_refl Hrun)).
Defined.

(** ** What a generation returns *)

Lemma create_points_length (rect : Region) (n : nat) (random : bool)
    (w w' : world) (X : list point) :
  create_points rect n random w = Ok (X, w') -> List.length X = n.
Proof.
  unfold create_points. destruct rect as [b t l r|]; [|discriminate].
  destruct random.
  - intros H.
    apply bindM_Ok in H. destruct H as (xs & w1 & Hx & H).
    apply bindM_Ok in H. destruct H as (ys & w2 & Hy & H).
    unfold ret in H. injection H as <- _.
    apply np_uniform_n_length in Hx, Hy.
    etransitivity; [exact (length_combine xs ys) | lia].
  - destruct n as [|n']; [discriminate|].
    remember (S n') as n0 eqn:En. intros H.
    unfold ret in H. injection H as <- _.
    apply firstn_length_le.
    rewrite (flat_map_constant_length (c := Nat.sqrt_up n0)).
    + rewrite linspace_length.
      destruct (Nat.sqrt_up_spec n0) as [_ Hs]; [lia|].
      simpl in Hs. exact Hs.
    + intros x _. now rewrite length_map, linspace_length.
Qed.

(** A generation that returns always returns a dataset of consistent
    shape: [n >= 1] points, one label (1 or [k]) and one slice id per
    point, an [n x m] vote matrix with [m >= 1], and the list of targeting
    LFs exactly when the slices were taken from the LF regions. *)
Theorem generate_dataset_shapes
    (py_seeded np_seeded torch_seeded : Z -> Rng.gen)
    (fuel : nat) (k : Z) (m n : nat)
    (L_kwargs : L_kwargs_t) (X_kwargs : X_kwargs_t) (Y_kwargs : Y_kwargs_t)
    (Z_kwargs : Z_kwargs_t) (unipolar : bool) (slice_source : string)
    (plotting : bool) (seed : option Z) (w w' : world) (ds : dataset) :
  generate_dataset py_seeded np_seeded torch_seeded fuel k m n L_kwargs
    X_kwargs Y_kwargs Z_kwargs unipolar slice_source plotting seed w
    = Ok (ds, w') ->
  (1 <= n)%nat /\ (1 <= m)%nat /\
  List.length (ds_X ds) = n /\ List.length (ds_Y ds) = n /\
  List.length (ds_Z ds) = n /\ List.length (ds_L ds) = n /\
  Forall (fun L_i => List.length L_i = m) (ds_L ds) /\
  Forall (fun y => y = 1%Z \/ y = k) (ds_Y ds) /\
  (ds_lfs_targeting_regions ds <> None <-> slice_source = "lfs"%string).
Proof.
  intros H. unfold generate_dataset in H.
  apply bindM_Ok in H. destruct H as (u & w0 & _ & H).
  apply bindM_Ok in H. destruct H as (canvas & w1 & _ & H).
  apply bindM_Ok in H. destruct H as (X & w2 & HX & H).
  apply bindM_Ok in H. destruct H as ([Y label_regions] & w3 & HY & H).
  apply bindM_Ok in H. destruct H as ([L lf_regions] & w4 & HL & H).
  apply bindM_Ok in H. destruct H as ([Zs slice_regions] & w5 & HZ & H).
  apply bindM_Ok in H. destruct H as (u' & w6 & _ & H).
  apply bindM_Ok in H. destruct H as (targeting & w7 & Ht & H).
  unfold ret in H. injection H as <- _. simpl.
  apply create_points_length in HX.
  apply create_labels_labelled in HY. destruct HY as [Hlab _].
  apply create_lfs_ok_shape in HL.
  destruct HL as (Hm & HXne & _ & HLrows & HLcols & _).
  unfold create_slices in HZ.
  apply create_slices_while_accepts in HZ;
    [|apply ids_upto_zeros | apply repeat_length].
  destruct HZ as (_ & _ & HZlen).
  assert (Hn : (1 <= n)%nat).
  { rewrite <- HX. destruct X; [contradiction | simpl; lia]. }
  repeat split; try assumption; try congruence.
  - rewrite (proj1 Hlab). exact HX.
  - exact (labelled_values Hlab).
  - intros Hsome. destruct (String.eqb_spec slice_source "lfs") as [E | E];
      [exact E|].
    unfold ret in Ht. injection Ht as <- _. contradiction.
  - intros ->. simpl in Ht.
    apply bindM_Ok in Ht. destruct Ht as (idxs & w8 & _ & Ht).
    unfold ret in Ht. injection Ht as <- _. discriminate.
Qed.

Lemma generate_dataset_shapes_witness :
  exists ds w',
    generate_dataset seeded_example seeded_example seeded_example
      3 2 1 4 L_kwargs_default X_kwargs_default Y_kwargs_one Z_kwargs_one
      false "random" false (Some 0%Z) (world_const 0) = Ok (ds, w') /\
    List.length (ds_L ds) = 4%nat.
Proof.
  eexists. eexists.
  assert (Hrun :
    generate_dataset seeded_example seeded_example seeded_example
      3 2 1 4 L_kwargs_default X_kwargs_default Y_kwargs_one Z_kwargs_one
      false "random" false (Some 0%Z) (world_const 0) = Ok (_, _))
    by (cbv; reflexivity).
  split; [exact Hrun|].
  destruct (@generate_dataset_shapes _ _ _ _ _ _ _ _ _ _ _ _ _ _ _ _ _ _ Hrun)
    as (_ & _ & _ & _ & _ & HL & _).
  exact HL.
Defined.

(** ** Slice ids and the regions of the accepted turn *)

(** The round trip between slice ids and regions holds for the accepted
    turn: the returned [regions] end with the [num_slices] ellipses of that
    turn, and every point with slice id [s > 0] lies in the [s]-th of
    them.  The regions before them are those of the rejected turns. *)
Theorem create_slices_round_trip_last_turn (fuel : nat) (X : list point)
    (Y : list Z) (L : list (list Z)) (slice_source : string)
    (lf_regions : option (list Region)) (num_slices : nat)
    (min_slice_size : Z) (min_a max_a : Q) (w w' : world)
    (Zs : list Z) (regions : list Region) :
  create_slices fuel X Y L slice_source lf_regions num_slices
    min_slice_size min_a max_a w = Ok ((Zs, regions), w') ->
  exists stale new,
    regions = stale ++ new /\ List.length new = num_slices /\
    forall i p s, nth_error X i = Some p -> nth_error Zs i = Some s ->
      (0 < s)%Z ->
      exists region,
        nth_error new (Z.to_nat (s - 1)) = Some region /\
        contains region p = Ok true.
Proof.
  intros H. unfold create_slices in H.
  apply create_slices_while_round_trip in H.
  destruct H as (stale & new & Hreg & Hlen & Hassigned).
  exists stale, new. split; [exact Hreg|]. split; [exact Hlen|].
  intros i p s Hp Hs Hpos.
  destruct (Hassigned i p s Hp Hs) as [-> | (region & _ & Hn & Hc)]; [lia|].
  eauto.
Qed.

Lemma create_slices_round_trip_last_turn_witness :
  exists regions w',
    create_slices 5 X5 [] [] "random" None 1 1 1 2
      (world_of [] [0; 0; 0; 1 # 5; 99 # 100; 99 # 100])
    = Ok (([0; 1; 1; 0; 0]%Z, regions), w') /\
    exists stale new, regions = stale ++ new /\ List.length new = 1%nat.
Proof.
  eexists. eexists.
  assert (Hrun :
    create_slices 5 X5 [] [] "random" None 1 1 1 2
      (world_of [] [0; 0; 0; 1 # 5; 99 # 100; 99 # 100])
    = Ok (([0; 1; 1; 0; 0]%Z, _), _)) by (cbv; reflexivity).
  split; [exact Hrun|].
  destruct (@create_slices_round_trip_last_turn _ _ _ _ _ _ _ _ _ _ _ _ _ _
              Hrun) as (stale & new & Hreg & Hlen & _).
  exists stale, new. split; assumption.
Defined.

(** ** The ranges the probabilities are drawn from *)

Lemma create_lfs_loop_accs_range (X : list point) (Y : list Z)
    (unipolar : bool) (min_r max_r min_acc max_acc min_prop max_prop : Q) :
  min_acc <= max_acc ->
  forall iters st w st' w',
    Forall (Forall (fun p => min_acc <= p /\ p <= max_acc)) (accs_hist st) ->
    create_lfs_loop X Y unipolar min_r max_r min_acc max_acc min_prop max_prop
      iters st w = Ok (st', w') ->
    Forall (Forall (fun p => min_acc <= p /\ p <= max_acc)) (accs_hist st').
Proof.
  intros Hle. induction iters as [|iters IH]; intros st w st' w' Hinv H.
  - simpl in H. now run_step.
  - cbn [create_lfs_loop] in H.
    apply bindM_Ok in H. destruct H as (i & w0 & _ & H).
    apply bindM_Ok in H. destruct H as ([x y] & w1 & _ & H).
    apply bindM_Ok in H. destruct H as (r & w2 & _ & H).
    apply bindM_Ok in H. destruct H as (region & w3 & _ & H).
    apply bindM_Ok in H. destruct H as (props & w4 & _ & H).
    apply bindM_Ok in H. destruct H as (accs & w5 & Haccs & H).
    apply bindM_Ok in H. destruct H as (l & w6 & _ & H).
    apply bindM_Ok in H. destruct H as (l' & w7 & _ & H).
    apply IH in H; [exact H|]. simpl.
    apply Forall_app. split; [exact Hinv|].
    constructor; [|constructor].
    now apply np_uniform_n_range in Haccs.
Qed.

(** Every coverage probability and every accuracy that [create_lfs]
    records lies in the accuracy range [min_acc, max_acc]: both vectors
    are drawn from it. *)
Theorem create_lfs_probabilities_in_accuracy_range (X : list point)
    (Y : list Z) (m : nat) (unipolar : bool)
    (min_r max_r min_acc max_acc min_prop max_prop : Q) (w w' : world)
    (L : list (list Z)) (st : lfs_state) :
  min_acc <= max_acc ->
  create_lfs_locals X Y m unipolar min_r max_r min_acc max_acc
    min_prop max_prop w = Ok ((L, st), w') ->
  Forall (Forall (fun p => min_acc <= p /\ p <= max_acc)) (props_hist st) /\
  Forall (Forall (fun p => min_acc <= p /\ p <= max_acc)) (accs_hist st).
Proof.
  intros Hle H. unfold create_lfs_locals in H.
  apply bindM_Ok in H. destruct H as (st0 & w1 & Hloop & H).
  assert (Hst : st = st0).
  { destruct m as [|m'].
    - apply lift_Ok in H. destruct H as [H _].
      destruct (_ =? _)%nat; discriminate H.
    - apply bindM_Ok in H. destruct H as (u & w2 & _ & H).
      unfold ret in H. now injection H as _ <- _. }
  subst st0. split.
  - eapply create_lfs_loop_props_range; [exact Hle | | exact Hloop].
    constructor.
  - eapply create_lfs_loop_accs_range; [exact Hle | | exact Hloop].
    constructor.
Qed.

Lemma create_lfs_probabilities_in_accuracy_range_witness :
  5 # 10 <= 9 # 10 /\
  exists L st w',
    create_lfs_locals X5 [1; 2; 2; 1; 2]%Z 1 false 1 5
      (5 # 10) (9 # 10) (1 # 10) (2 # 10)
      (world_of [] [0; 0; 1 # 2; 1 # 2; 1 # 2; 1 # 2]) = Ok ((L, st), w') /\
    Forall (Forall (fun p => 5 # 10 <= p /\ p <= 9 # 10)) (props_hist st).
Proof.
  assert (Hle : 5 # 10 <= 9 # 10) by discriminate.
  split; [exact Hle|].
  eexists. eexists. eexists.
  assert (Hrun :
    create_lfs_locals X5 [1; 2; 2; 1; 2]%Z 1 false 1 5
      (5 # 10) (9 # 10) (1 # 10) (2 # 10)
      (world_of [] [0; 0; 1 # 2; 1 # 2; 1 # 2; 1 # 2]) = Ok ((_, _), _))
    by (cbv; reflexivity).
  split; [exact Hrun|].
  exact (proj1 (@create_lfs_probabilities_in_accuracy_range
                  _ _ _ _ _ _ _ _ _ _ _ _ _ _ Hle Hrun)).
Defined.

Lemma rectangle_square_construction_witness :
  (0 < 2 /\ 0 < 10) /\ Rectangle 0 2 0 10 = Ok (RectangleObj 0 2 0 10).
Proof.
  assert (H : 0 < 2 /\ 0 < 10) by (split; reflexivity).
  split; [exact H|].
  exact (proj2 (proj1 (rectangle_square_construction 0 2 0 10)) H).
Defined.
